(** * Session-log cleaner and log server: a shallow embedding

    The development follows the two programs of the repository:

    - [claude-log-clean.py]: the colour table [COLORS], [char_to_html],
      [screen_to_html], [clean_log] and [main];
    - [claude-log-server.py]: [convert_log_to_html] and [view_log].

    Python strings are sequences of Unicode code points and are modelled as
    lists of code points ([list N]); byte strings are lists of bytes.  The
    terminal emulator (pyte) and the UTF-8 decoder are libraries outside the
    repository: the screen they produce is a value of type [Screen], and the
    functions that fill it are section variables. *)

From Stdlib Require Import Ascii String.
From Stdlib.Strings Require Import Byte.
From stdpp Require Import base list gmap pretty.

Open Scope N_scope.
Open Scope nat_scope.
Open Scope list_scope.

(** ** Python strings *)

Abbreviation pystr := (list N) (only parsing).

(** A literal of the program text, as a list of code points. *)
Definition py (s : string) : pystr :=
  map N_of_ascii (list_ascii_of_string s).

Definition nl : pystr := [10%N].
Definition dquote : pystr := [34%N].

(** [a == b] on strings. *)
Definition str_eqb (a b : pystr) : bool := bool_decide (a = b).

(** [sep.join(parts)]. *)
Fixpoint join (sep : pystr) (parts : list pystr) : pystr :=
  match parts with
  | [] => []
  | [p] => p
  | p :: rest => p ++ sep ++ join sep rest
  end.

(** [str.isspace] on one code point: the characters that [strip], [rstrip]
    and [lstrip] remove when called without argument. *)
Definition is_space (c : N) : bool :=
  ((9 <=? c) && (c <=? 13) || (28 <=? c) && (c <=? 32)
   || (c =? 133) || (c =? 160) || (c =? 5760)
   || (8192 <=? c) && (c <=? 8202)
   || (c =? 8232) || (c =? 8233) || (c =? 8239) || (c =? 8287)
   || (c =? 12288))%N.

(** [s.lstrip()]. *)
Fixpoint lstrip (s : pystr) : pystr :=
  match s with
  | [] => []
  | c :: s' => if is_space c then lstrip s' else s
  end.

(** [s.rstrip()]. *)
Fixpoint rstrip (s : pystr) : pystr :=
  match s with
  | [] => []
  | c :: s' =>
      match rstrip s' with
      | [] => if is_space c then [] else [c]
      | r => c :: r
      end
  end.

(** [s.strip()]. *)
Definition strip (s : pystr) : pystr := lstrip (rstrip s).

(** Truth value of a string: a string is true when it is not empty. *)
Definition nonempty (s : pystr) : bool :=
  match s with [] => false | _ => true end.

(** [s.startswith(p)]. *)
Fixpoint startswith (p s : pystr) : bool :=
  match p, s with
  | [], _ => true
  | _ :: _, [] => false
  | a :: p', b :: s' => (a =? b)%N && startswith p' s'
  end.

(** [s.endswith(p)]. *)
Definition endswith (p s : pystr) : bool := startswith (rev p) (rev s).

(** [sub in s] (substring test). *)
Fixpoint contains (sub s : pystr) : bool :=
  startswith sub s ||
  match s with
  | [] => false
  | _ :: s' => contains sub s'
  end.

(** [s.replace(old, new)] for a non-empty [old]: the occurrences of [old] are
    replaced from left to right, without overlap.  [skip] counts the
    characters of an occurrence that are still to be dropped. *)
Fixpoint replace_from (old new : pystr) (skip : nat) (s : pystr) : pystr :=
  match s with
  | [] => []
  | c :: s' =>
      match skip with
      | S k => replace_from old new k s'
      | O =>
          if startswith old s
          then new ++ replace_from old new (length old - 1) s'
          else c :: replace_from old new 0 s'
      end
  end.

Definition replace (old new s : pystr) : pystr := replace_from old new 0 s.

(** ** Formatting an integer with [:06x] *)

Definition hex_digit (d : N) : N :=
  if (d <? 10)%N then (48 + d)%N else (87 + d)%N.

Fixpoint hex_go (fuel : nat) (n : N) (acc : pystr) : pystr :=
  match fuel with
  | O => acc
  | S fuel' =>
      let acc' := hex_digit (n mod 16)%N :: acc in
      if (n / 16 =? 0)%N then acc' else hex_go fuel' (n / 16)%N acc'
  end.

(** [format(n, 'x')] for [n >= 0]. *)
Definition hex_of_N (n : N) : pystr := hex_go (S (N.size_nat n)) n [].

(** [f'{n:06x}']: lower-case hexadecimal, padded with zeros after the sign to
    a total width of six. *)
Definition format_06x (n : Z) : pystr :=
  let sign := if (n <? 0)%Z then py "-" else [] in
  let digits := hex_of_N (Z.abs_N n) in
  sign ++ replicate (6 - length sign - length digits) 48%N ++ digits.

(** ** The colour table *)

(** ANSI color to CSS color mapping. *)
Definition COLORS : gmap (list N) (list N) :=
  list_to_map
    [ (py "black", py "#000000");
      (py "red", py "#cc0000");
      (py "green", py "#4e9a06");
      (py "brown", py "#c4a000");
      (py "yellow", py "#c4a000");
      (py "blue", py "#3465a4");
      (py "magenta", py "#75507b");
      (py "cyan", py "#06989a");
      (py "white", py "#d3d7cf");
      (py "default", py "#d3d7cf");
      (py "brightblack", py "#555753");
      (py "brightred", py "#ef2929");
      (py "brightgreen", py "#8ae234");
      (py "brightyellow", py "#fce94f");
      (py "brightblue", py "#729fcf");
      (py "brightmagenta", py "#ad7fa8");
      (py "brightcyan", py "#34e2e2");
      (py "brightwhite", py "#eeeeec") ].

(** [d.get(k, dflt)]. *)
Definition dict_get (d : gmap (list N) (list N)) (k dflt : pystr) : pystr :=
  default dflt (d !! k).

(** ** Screen cells *)

(** The value held by the [fg] or [bg] attribute of a cell, as far as
    [char_to_html] distinguishes values: a string, an integer, or any other
    object, of which only the truth value matters. *)
Inductive color : Type :=
  | CStr (s : pystr)
  | CInt (n : Z)
  | COther (truth : bool).

(** A pyte [Char], with the four attributes the program reads. *)
Record Char : Type := mkChar {
  data : pystr;
  fg : color;
  bg : color;
  bold : bool
}.

(** The truth value of a colour ([if fg ...]). *)
Definition truthy (c : color) : bool :=
  match c with
  | CStr s => nonempty s
  | CInt n => negb (n =? 0)%Z
  | COther b => b
  end.

(** [c == 'default']. *)
Definition is_default (c : color) : bool :=
  match c with
  | CStr s => str_eqb s (py "default")
  | _ => false
  end.

(** Foreground color: a name is looked up in [COLORS], then with the prefix
    ['bright'], then falls back to ['#d3d7cf']; an integer is printed in
    hexadecimal (256-color or RGB); anything else is ['#d3d7cf']. *)
Definition fg_color (c : color) : pystr :=
  match c with
  | CStr s =>
      dict_get COLORS s (dict_get COLORS (py "bright" ++ s) (py "#d3d7cf"))
  | CInt n => py "#" ++ format_06x n
  | COther _ => py "#d3d7cf"
  end.

(** Background color: the same lookups, falling back to ['#000000']. *)
Definition bg_color (c : color) : pystr :=
  match c with
  | CStr s =>
      dict_get COLORS s (dict_get COLORS (py "bright" ++ s) (py "#000000"))
  | CInt n => py "#" ++ format_06x n
  | COther _ => py "#000000"
  end.

(** The entries appended to [styles] for the foreground, the background and
    the bold flag. *)
Definition fg_styles (c : color) : list pystr :=
  if truthy c && negb (is_default c) then [py "color:" ++ fg_color c] else [].

Definition bg_styles (c : color) : list pystr :=
  if truthy c && negb (is_default c)
  then [py "background-color:" ++ bg_color c] else [].

Definition bold_styles (b : bool) : list pystr :=
  if b then [py "font-weight:bold"] else [].

Definition char_styles (ch : Char) : list pystr :=
  fg_styles (fg ch) ++ bg_styles (bg ch) ++ bold_styles (bold ch).

(** Escape HTML. *)
Definition escape_data (d : pystr) : pystr :=
  if str_eqb d (py "<") then py "&lt;"
  else if str_eqb d (py ">") then py "&gt;"
  else if str_eqb d (py "&") then py "&amp;"
  else d.

Definition span (styles : list pystr) (d : pystr) : pystr :=
  py "<span style=" ++ dquote ++ join (py ";") styles ++ dquote ++ py ">"
  ++ d ++ py "</span>".

(** Convert a pyte Char to HTML with styling. *)
Definition char_to_html (ch : Char) : pystr :=
  if str_eqb (data ch) (py " ") && is_default (fg ch) && is_default (bg ch)
  then py " "
  else
    let styles := char_styles ch in
    let d := escape_data (data ch) in
    match styles with
    | [] => d
    | _ :: _ => span styles d
    end.

(** ** The screen *)

(** A pyte [Screen] after playback: its dimensions and its buffer.  pyte
    keeps the buffer as a sparse mapping in which an absent row or cell reads
    as the default character; here rows and cells are lists, and reading past
    the end of a list gives the default character. *)
Record Screen : Type := mkScreen {
  columns : nat;
  lines : nat;
  buffer : list (list Char)
}.

Definition default_char : Char :=
  {| data := py " "; fg := CStr (py "default"); bg := CStr (py "default");
     bold := false |}.

(** [screen.buffer[y]]. *)
Definition line_at (screen : Screen) (y : nat) : list Char :=
  default [] (buffer screen !! y).

(** [line[x]]. *)
Definition char_at (line : list Char) (x : nat) : Char :=
  default default_char (line !! x).

(** [range(n)]. *)
Definition range (n : nat) : list nat := seq 0 n.

(** The test of the scan for the last non-empty character:
    [line[x].data != ' ' or line[x].bg != 'default']. *)
Definition non_empty_cell (ch : Char) : bool :=
  negb (str_eqb (data ch) (py " ")) || negb (is_default (bg ch)).

(** Find last non-empty character: [last_char] starts at 0 and is set to
    every column that passes the test, in increasing order. *)
Definition last_char (cols : nat) (line : list Char) : nat :=
  fold_left
    (λ last x, if non_empty_cell (char_at line x) then x else last)
    (range cols) 0.

(** [line_html]: only the cells up to the last non-empty one are processed. *)
Definition line_html (cols : nat) (line : list Char) : list pystr :=
  map (λ x, char_to_html (char_at line x)) (range (last_char cols line + 1)).

(** [line_str = ''.join(line_html).rstrip()]. *)
Definition line_str (cols : nat) (line : list Char) : pystr :=
  rstrip (join [] (line_html cols line)).

(** One iteration of a loop that appends a string when it is not empty. *)
Definition append_if_nonempty (acc : list pystr) (s : pystr) : list pystr :=
  if nonempty s then acc ++ [s] else acc.

(** The list [lines] of [screen_to_html] after its [for] loop. *)
Definition html_lines (screen : Screen) : list pystr :=
  fold_left
    (λ acc y, append_if_nonempty acc (line_str (columns screen) (line_at screen y)))
    (range (lines screen)) [].

(** [while lines and not lines[-1].strip(): lines.pop()], on the reversed
    list. *)
Fixpoint pop_blank (rev_lines : list pystr) : list pystr :=
  match rev_lines with
  | [] => []
  | l :: rest => if nonempty (strip l) then rev_lines else pop_blank rest
  end.

(** Remove trailing empty lines. *)
Definition remove_trailing_empty (ls : list pystr) : list pystr :=
  rev (pop_blank (rev ls)).

(** Convert pyte screen to HTML with colors. *)
Definition screen_to_html (screen : Screen) : pystr :=
  join nl (remove_trailing_empty (html_lines screen)).

(** [wcwidth(char[0]) == 2] for the text of a cell, [wide] being the test
    [wcwidth(c) == 2] on a code point.  The emulator stores the empty text
    in the cell after a double-width glyph, which [render] skips; on an
    empty text that is not skipped the indexing raises, and the value given
    here is not used. *)
Definition starts_wide (wide : N → bool) (d : pystr) : bool :=
  match d with
  | c :: _ => wide c
  | [] => false
  end.

(** The generator [render] inside [screen.display]: the texts of the cells
    of a row in column order, the cell after a double-width glyph being
    skipped whatever it holds.  [is_wide_char] is the flag of the loop. *)
Fixpoint render (wide : N → bool) (is_wide_char : bool) (cells : list Char)
    : list pystr :=
  match cells with
  | [] => []
  | ch :: rest =>
      if is_wide_char then render wide false rest
      else data ch :: render wide (starts_wide wide (data ch)) rest
  end.

(** [screen.display] when it returns: one string per screen row.  That it
    may raise instead enters [clean_log] below. *)
Definition display (wide : N → bool) (screen : Screen) : list pystr :=
  map
    (λ y, concat (render wide false
                    (map (char_at (line_at screen y))
                         (range (columns screen)))))
    (range (lines screen)).

(** The list [lines] of the plain text branch of [clean_log] after its
    [for] loop. *)
Definition text_lines (wide : N → bool) (screen : Screen) : list pystr :=
  fold_left (λ acc line, append_if_nonempty acc (rstrip line))
            (display wide screen) [].

(** Plain text output. *)
Definition render_text (wide : N → bool) (screen : Screen) : pystr :=
  join nl (remove_trailing_empty (text_lines wide screen)).

(** The fixed document around the HTML content. *)
Definition html_document (content : pystr) : pystr :=
  join nl
    [ py "<!DOCTYPE html>";
      py "<html>";
      py "<head>";
      py "<meta charset=" ++ dquote ++ py "UTF-8" ++ dquote ++ py ">";
      py "<title>Claude Session Log</title>";
      py "<style>";
      py "body {";
      py "    background-color: #1e1e1e;";
      py "    color: #d4d4d4;";
      py "    font-family: 'Fira Code', 'Consolas', 'Monaco', monospace;";
      py "    font-size: 14px;";
      py "    padding: 20px;";
      py "    margin: 0;";
      py "}";
      py "pre {";
      py "    white-space: pre-wrap;";
      py "    word-wrap: break-word;";
      py "    margin: 0;";
      py "    line-height: 1.4;";
      py "}";
      py "</style>";
      py "</head>";
      py "<body>";
      py "<pre>" ++ content ++ py "</pre>";
      py "</body>";
      py "</html>" ].

(** ** [clean_log] and [main] *)

(** What a run of the command-line program leaves behind: the texts printed
    on standard output and on standard error, and the files written. *)
Record Effects : Type := mkEffects {
  stdout : list pystr;
  stderr : list pystr;
  written : list (pystr * pystr)
}.

(** The files and streams the program meets.  [read_bytes path] is the
    content read by [open(path, 'rb')], or [None] when opening or reading
    raises.  [write_text path text] tells whether [open(path, 'w')] and the
    write of [text] succeed.  [print_out text] and [print_err text] are
    [None] when [print] writes the text on standard output or on standard
    error; they are [Some c] when the text cannot be written (closed pipe,
    full device, text that the encoding of the stream does not have), the
    process then ending with the status [c]: 1 when [print] raises, 120 when
    the loss shows at the final flush. *)
Record World : Type := mkWorld {
  read_bytes : pystr → option (list byte);
  write_text : pystr → pystr → bool;
  print_out : pystr → option positive;
  print_err : pystr → option positive
}.

(** Several calls of [print] in a row: the texts written, and the status of
    the first failure. *)
Fixpoint print_lines (w : World) (texts : list pystr)
    : list pystr * option positive :=
  match texts with
  | [] => ([], None)
  | t :: rest =>
      match print_out w t with
      | Some c => ([], Some c)
      | None =>
          let '(done, failure) := print_lines w rest in (t :: done, failure)
      end
  end.

(** The handler of the exception of [stream.feed]:
    [print(f"Warning: {e}", file=sys.stderr)]. *)
Definition warn (w : World) (exc : option pystr)
    : list pystr * option positive :=
  match exc with
  | None => ([], None)
  | Some e =>
      match print_err w (py "Warning: " ++ e) with
      | None => ([py "Warning: " ++ e], None)
      | Some c => ([], Some c)
      end
  end.

(** [data.index(b'\n')], [None] standing for [ValueError]. *)
Fixpoint bytes_index (b : byte) (bs : list byte) : option nat :=
  match bs with
  | [] => None
  | c :: rest =>
      if Byte.eqb c b then Some 0
      else match bytes_index b rest with
           | Some i => Some (S i)
           | None => None
           end
  end.

(** Skip the "Script started" header line. *)
Definition skip_header (bs : list byte) : list byte :=
  match bytes_index x0a bs with
  | Some first_newline => drop (first_newline + 1) bs
  | None => bs
  end.

(** [pyte.Screen(200, 10000)]: the screen before anything is fed to it. *)
Definition new_screen : Screen :=
  {| columns := 200; lines := 10000; buffer := [] |}.

Section Playback.

(** [bytes.decode('utf-8', errors='replace')]. *)
Variable decode_utf8 : list byte → pystr.

(** [stream.feed(text)] on a screen: the screen afterwards, and the message
    of the exception when the call raised one. *)
Variable feed : Screen → pystr → Screen * option pystr.

(** Create terminal emulator, skip the header, feed data. *)
Definition playback (bs : list byte) : Screen * option pystr :=
  let screen := new_screen in
  feed screen (decode_utf8 (skip_header bs)).

(** [wcwidth(c) == 2], the test that [screen.display] makes. *)
Variable wide : N → bool.

(** The exception that [screen.display] raises on a screen, if any: the
    emulator indexes the first code point of the text of every cell it does
    not skip and asserts that the other code points have no width. *)
Variable display_error : Screen → option pystr.

(** Process a script typescript file and output clean text or HTML.  The
    result is [inl output] when the function returns and nothing was lost,
    and [inr c] when the process ends with the status [c]: an exception
    leaves the function ([c] is 1), or a [print] fails. *)
Definition clean_log (w : World) (input_file : pystr)
    (output_file : option pystr) (html : bool)
    : Effects * (pystr + positive) :=
  match read_bytes w input_file with
  | None => (mkEffects [] [] [], inr 1%positive)
  | Some bs =>
      let '(screen, exc) := playback bs in
      match warn w exc with
      | (warnings, Some c) => (mkEffects [] warnings [], inr c)
      | (warnings, None) =>
          if negb html && bool_decide (is_Some (display_error screen))
          then (mkEffects [] warnings [], inr 1%positive)
          else
          let output :=
            if html then html_document (screen_to_html screen)
            else render_text wide screen in
          let print_output :=
            match print_out w output with
            | None => (mkEffects [output] warnings [], inl output)
            | Some c => (mkEffects [] warnings [], inr c)
            end in
          match output_file with
          | Some f =>
              if nonempty f then
                if write_text w f output then
                  match print_out w (py "Written to: " ++ f) with
                  | None =>
                      (mkEffects [py "Written to: " ++ f] warnings
                                 [(f, output)], inl output)
                  | Some c => (mkEffects [] warnings [(f, output)], inr c)
                  end
                else (mkEffects [] warnings [], inr 1%positive)
              else print_output
          | None => print_output
          end
      end
  end.

(** The loop of [main] over [sys.argv[2:]]. *)
Definition scan_args (args : list pystr) : option pystr * bool :=
  fold_left
    (λ '(output_file, html) arg,
       if str_eqb arg (py "--html") then (output_file, true)
       else (Some arg, html))
    args (None, false).

(** Auto-detect HTML from output filename. *)
Definition auto_html (output_file : option pystr) (html : bool) : bool :=
  match output_file with
  | Some f => if nonempty f && endswith (py ".html") f then true else html
  | None => html
  end.

Definition usage : list pystr :=
  [ py "Usage: claude-log-clean.py <logfile> [output] [--html]";
    py "       Cleans typescript logs by simulating terminal playback";
    py "       --html: Generate HTML with colors (auto if output ends in .html)" ].

(** [main], run as a process on the argument vector [argv]: the effects and
    the exit status.  [sys.exit(1)] gives status 1, an exception that
    leaves [main] ends the process with status 1, a text that cannot be
    printed ends it with the status of that failure, and returning from
    [main] with everything printed gives status 0. *)
Definition main (w : World) (argv : list pystr) : Effects * Z :=
  if length argv <? 2 then
    let '(done, failure) := print_lines w usage in
    (mkEffects done [] [],
     match failure with
     | Some c => Z.pos c
     | None => 1%Z
     end)
  else
    let input_file := default [] (argv !! 1) in
    let '(output_file, html) := scan_args (drop 2 argv) in
    let html := auto_html output_file html in
    match clean_log w input_file output_file html with
    | (eff, inl _) => (eff, 0%Z)
    | (eff, inr c) => (eff, Z.pos c)
    end.

End Playback.

(** ** The log server *)

(** A file of the log directory: its [st_mtime] and the text that
    [read_text] returns.  [st_mtime] is the float that [stat] reports, not
    the exact time of the last modification: two modifications a few
    nanoseconds apart can have the same [st_mtime].  The program compares
    two of these floats and formats one into the cache key; floats other
    than NaN are totally ordered, and [mtime] holds the float as an integer
    in the same order.  The directory holds regular files whose bytes are
    valid UTF-8. *)
Record File : Type := mkFile {
  mtime : Z;
  text : pystr
}.

(** What [subprocess.run] does: it raises (time-out, missing interpreter,
    ...) or it completes with a return code and the captured output. *)
Inductive RunResult : Type :=
  | Raised (e : pystr)
  | Completed (returncode : Z) (out : pystr).

(** The accesses a request makes to the world outside the process. *)
Inductive Access : Type :=
  | Exists (path : pystr)
  | Stat (path : pystr)
  | ReadText (path : pystr)
  | Subprocess (path : pystr).

(** The state of the server process: the dictionary [html_cache], and the
    accesses made so far. *)
Record ServerState : Type := mkState {
  html_cache : gmap (list N) (list N);
  accesses : list Access
}.

(** How a piece of a request handler ends: with a value, with [abort(code)],
    or with another exception, which nothing catches. *)
Inductive Result (A : Type) : Type :=
  | Ok (a : A)
  | Abort (code : nat)
  | Crash (exc : pystr).
Arguments Ok {A} a.
Arguments Abort {A} code.
Arguments Crash {A} exc.

Definition M (A : Type) : Type := ServerState → Result A * ServerState.

Definition ret {A : Type} (a : A) : M A := λ st, (Ok a, st).

Definition bind {A B : Type} (m : M A) (k : A → M B) : M B := λ st,
  match m st with
  | (Ok a, st') => k a st'
  | (Abort c, st') => (Abort c, st')
  | (Crash e, st') => (Crash e, st')
  end.

Notation "'let*' x := m 'in' k" := (bind m (λ x, k))
  (at level 10, x name, k at level 200).

Definition abort {A : Type} (code : nat) : M A := λ st, (Abort code, st).

(** [if cond: abort(code)]. *)
Definition abort_if (cond : bool) (code : nat) : M unit := λ st,
  if cond then (Abort code, st) else (Ok tt, st).

Definition raise {A : Type} (exc : pystr) : M A := λ st, (Crash exc, st).

Definition access (a : Access) : M unit := λ st,
  (Ok tt, mkState (html_cache st) (accesses st ++ [a])).

Definition get_cache : M (gmap (list N) (list N)) := λ st,
  (Ok (html_cache st), st).

(** [html_cache[key] = value]. *)
Definition cache_store (key value : pystr) : M unit := λ st,
  (Ok tt, mkState (<[key := value]> (html_cache st)) (accesses st)).

(** [dir / name] for a name that is one path component: not empty, without
    [/], and neither [.] nor [..].  For such a name pathlib appends the name
    after a separator; it maps the empty name and [.] to [dir] itself and
    lets an absolute name replace [dir], which this definition does not
    follow. *)
Definition path_join (dir name : pystr) : pystr := dir ++ py "/" ++ name.

(** [f"{logfile}:{mtime}"], [mtime_str] being the formatting of the float
    [mtime] by the f-string. *)
Definition cache_key (mtime_str : Z → pystr) (logfile : pystr) (m : Z)
    : pystr :=
  logfile ++ py ":" ++ mtime_str m.

(** The page returned when the conversion raises. *)
Definition error_page (e : pystr) : pystr :=
  py "<html><body><pre>Error converting log: " ++ e
  ++ py "</pre></body></html>".

(** An HTTP response: a page with status 200, or an error status. *)
Inductive Response : Type :=
  | Page (body mimetype : pystr)
  | Status (code : nat).

Section Server.

(** [Path.home()]. *)
Variable home : pystr.

(** The text that an f-string gives for the float [st_mtime]. *)
Variable mtime_str : Z → pystr.

(** The run of the clean script on a log, with [--html]: its outcome
    depends on the files present and on the log it is given. *)
Variable run_clean : gmap (list N) File → pystr → RunResult.

Definition LOG_DIR : pystr := path_join home (py "claude-logs").

Definition log_path_of (logfile : pystr) : pystr :=
  path_join LOG_DIR logfile.

Definition html_path_of (logfile : pystr) : pystr :=
  path_join LOG_DIR (replace (py ".log") (py ".html") logfile).

Section Request.

(** The files at the time of the request. *)
Variable fs : gmap (list N) File.

(** [path.exists()], for the paths of a directory that holds regular files
    only.  The call is taken to answer: an over-long name, for which the
    system call fails with another error than a missing file, is left
    out. *)
Definition path_exists (path : pystr) : M bool :=
  let* _ := access (Exists path) in ret (bool_decide (is_Some (fs !! path))).

(** [path.stat().st_mtime]; a missing file raises. *)
Definition stat_mtime (path : pystr) : M Z :=
  let* _ := access (Stat path) in
  match fs !! path with
  | Some f => ret (mtime f)
  | None => raise (py "FileNotFoundError")
  end.

(** [path.read_text()]; a missing file raises.  The files are regular and
    their bytes valid UTF-8, so that nothing else raises: a directory and
    bytes that cannot be decoded are left out. *)
Definition read_text (path : pystr) : M pystr :=
  let* _ := access (ReadText path) in
  match fs !! path with
  | Some f => ret (text f)
  | None => raise (py "FileNotFoundError")
  end.

(** [subprocess.run(['python3', CLEAN_SCRIPT, log_path, '--html'], ...)]. *)
Definition subprocess_run (log_path : pystr) : M RunResult :=
  let* _ := access (Subprocess log_path) in ret (run_clean fs log_path).

(** The part of [convert_log_to_html] after the pre-converted file has
    been ruled out: check cache, then convert using the clean script. *)
Definition convert_cached (logfile log_path : pystr) : M (option pystr) :=
  let* m := stat_mtime log_path in
  let key := cache_key mtime_str logfile m in
  let* cache := get_cache in
  match cache !! key with
  | Some html => ret (Some html)
  | None =>
      let* result := subprocess_run log_path in
      match result with
      | Raised e => ret (Some (error_page e))
      | Completed returncode out =>
          if (returncode =? 0)%Z
          then let* _ := cache_store key out in ret (Some out)
          else ret None
      end
  end.

(** Only use the pre-converted file if HTML is newer than log:
    [html_path.exists()] and then [html_mtime >= log_mtime]. *)
Definition newer_html (html_exists : bool) (html_path log_path : pystr)
    : M bool :=
  if html_exists then
    let* html_mtime := stat_mtime html_path in
    let* log_mtime := stat_mtime log_path in
    ret (log_mtime <=? html_mtime)%Z
  else ret false.

(** Convert log to HTML, preferring fresh pre-converted files. *)
Definition convert_log_to_html (logfile : pystr) : M (option pystr) :=
  let log_path := log_path_of logfile in
  let html_path := html_path_of logfile in
  let* log_exists := path_exists log_path in
  if negb log_exists then ret None
  else
    let* html_exists := path_exists html_path in
    let* fresh := newer_html html_exists html_path log_path in
    if fresh then let* html := read_text html_path in ret (Some html)
    else convert_cached logfile log_path.

(** View a specific log file as clean HTML. *)
Definition view_log (filename : pystr) : M Response :=
  let* _ := abort_if (contains (py "/") filename
                      || contains (py "..") filename) 400 in
  let* _ := abort_if (negb (endswith (py ".log") filename)) 400 in
  let* html := convert_log_to_html filename in
  match html with
  | None => abort 404
  | Some body => ret (Page body (py "text/html"))
  end.

(** What the client of [/log/<filename>] receives: the page, the status
    of an [abort], or status 500 when an exception went through. *)
Definition serve_log (filename : pystr) (st : ServerState)
    : Response * ServerState :=
  match view_log filename st with
  | (Ok r, st') => (r, st')
  | (Abort code, st') => (Status code, st')
  | (Crash _, st') => (Status 500, st')
  end.

End Request.

End Server.

(** * Vocabulary of the properties *)

(** ** Cells: wrapping, colours, escaping *)

(** A cell that the first test of [char_to_html] recognises: a space with
    default foreground and default background. *)
Definition blank_default (ch : Char) : bool :=
  str_eqb (data ch) (py " ") && is_default (fg ch) && is_default (bg ch).

(** A colour that adds an entry to [styles]. *)
Definition adds_style (c : color) : bool := truthy c && negb (is_default c).

(** A cell that gets at least one style. *)
Definition styled (ch : Char) : bool :=
  adds_style (fg ch) || adds_style (bg ch) || bold ch.

(** The opening tag written by [span]. *)
Definition span_open (styles : list pystr) : pystr :=
  py "<span style=" ++ dquote ++ join (py ";") styles ++ dquote ++ py ">".

(** The output is a styled inline element. *)
Definition is_span (out : pystr) : bool := startswith (py "<span style=") out.

(** A colour that [COLORS] resolves, under its own name or with the prefix
    ['bright'], or that is printed from its integer value. *)
Definition resolved (c : color) : bool :=
  match c with
  | CStr s =>
      bool_decide (is_Some (COLORS !! s))
      || bool_decide (is_Some (COLORS !! (py "bright" ++ s)))
  | CInt _ => true
  | COther _ => false
  end.

(** The glyph [glyph] stands in the output of the cell, bare or inside the
    span of the cell's styles. *)
Inductive rendered_as (ch : Char) (glyph : pystr) : Prop :=
  | rendered_bare : char_to_html ch = glyph → rendered_as ch glyph
  | rendered_in_span :
      char_to_html ch
      = py "<span style=" ++ [34%N] ++ join (py ";") (char_styles ch)
        ++ [34%N] ++ py ">" ++ glyph ++ py "</span>" →
      rendered_as ch glyph.

(** The reading under which every cell other than the blank default one is
    wrapped in a span, and a bare space comes from a blank default cell
    only. *)
Definition every_other_cell_wrapped : Prop :=
  ∀ ch : Char,
    (char_to_html ch = py " " ↔ blank_default ch = true)
    ∧ (blank_default ch = false → is_span (char_to_html ch) = true).

(** The reading under which a colour gives the same hexadecimal value in the
    foreground role and in the background role. *)
Definition same_hex_in_both_roles : Prop :=
  ∀ c : color, fg_color c = bg_color c.

(** A less-than sign followed by a combining acute accent (U+0301): the text
    of the cell after the emulator has merged the accent into the cell of
    the sign. *)
Definition accented_less_than : Char :=
  {| data := [60%N; 769%N]; fg := CStr (py "default");
     bg := CStr (py "default"); bold := false |}.

Definition plain_glyph : Char :=
  {| data := py "a"; fg := CStr (py "default"); bg := CStr (py "default");
     bold := false |}.

Definition quote_cell : Char :=
  {| data := dquote; fg := CStr (py "red"); bg := CStr (py "default");
     bold := false |}.

Definition bold_red_H : Char :=
  {| data := py "H"; fg := CStr (py "red"); bg := CStr (py "default");
     bold := true |}.

(** ** Rows: the cut-point and blank rows *)

(** A cell that differs from the blank default cell: its glyph is not a
    space, or its foreground is not the default, or its background is not
    the default. *)
Definition differs_from_blank (ch : Char) : bool :=
  negb (str_eqb (data ch) (py " ")) || negb (is_default (fg ch))
  || negb (is_default (bg ch)).

(** The cut-point in the words of the specification: the last column whose
    cell differs from the blank default cell, found by scanning the row. *)
Definition spec_cut_point (cols : nat) (line : list Char) : nat :=
  fold_left
    (λ last x, if differs_from_blank (char_at line x) then x else last)
    (range cols) 0.

(** The reading under which the scan of [screen_to_html] finds the cut-point
    of the specification. *)
Definition cut_point_counts_foreground : Prop :=
  ∀ (cols : nat) (line : list Char),
    last_char cols line = spec_cut_point cols line.

(** A fully blank row: every cell is a space with default colours. *)
Definition blank_row (line : list Char) : bool := forallb blank_default line.

(** Row [y] is blank and lies between two rows that are not. *)
Definition interior_blank_row (screen : Screen) (y : nat) : Prop :=
  blank_row (line_at screen y) = true
  ∧ (∃ y0, y0 < y ∧ blank_row (line_at screen y0) = false)
  ∧ (∃ y1, y < y1 ∧ y1 < lines screen
           ∧ blank_row (line_at screen y1) = false).

(** The reading under which the HTML backend keeps an interior blank row as
    an empty line of its output. *)
Definition html_keeps_interior_blank_rows : Prop :=
  ∀ (screen : Screen) (y : nat),
    interior_blank_row screen y →
    In [] (remove_trailing_empty (html_lines screen)).

(** A screen whose buffer is the given list of rows. *)
Definition screen_of_rows (cols : nat) (rows : list (list Char)) : Screen :=
  {| columns := cols; lines := length rows; buffer := rows |}.

(** The text of one display row. *)
Definition row_text (wide : N → bool) (cols : nat) (line : list Char)
    : pystr :=
  concat (render wide false (map (char_at line) (range cols))).

Definition glyph (s : string) : Char :=
  {| data := py s; fg := CStr (py "default"); bg := CStr (py "default");
     bold := false |}.

Definition red_space : Char :=
  {| data := py " "; fg := CStr (py "red"); bg := CStr (py "default");
     bold := false |}.

(** Three rows of three columns: [a], a blank row, [b]. *)
Definition three_rows : Screen :=
  screen_of_rows 3 [ [glyph "a"]; []; [glyph "b"] ].

(** ** The command line *)

(** The input file, the output file and the HTML flag that [main] reads from
    its argument vector. *)
Definition input_of (argv : list pystr) : pystr := default [] (argv !! 1).

Definition output_of (argv : list pystr) : option pystr :=
  (scan_args (drop 2 argv)).1.

Definition html_flag_of (argv : list pystr) : bool :=
  (scan_args (drop 2 argv)).2.

(** The mode that [main] passes to [clean_log]. *)
Definition mode_of (argv : list pystr) : bool :=
  auto_html (output_of argv) (html_flag_of argv).

(** The text that [clean_log] produces from the bytes of the log. *)
Definition rendering (decode_utf8 : list byte → pystr)
    (feed : Screen → pystr → Screen * option pystr) (wide : N → bool)
    (bs : list byte) (html : bool) : pystr :=
  if html
  then html_document (screen_to_html (playback decode_utf8 feed bs).1)
  else render_text wide (playback decode_utf8 feed bs).1.

(** The emulator raised on the bytes [bs] and the warning could not be
    printed on standard error. *)
Definition warning_fails (decode_utf8 : list byte → pystr)
    (feed : Screen → pystr → Screen * option pystr)
    (w : World) (bs : list byte) : Prop :=
  ∃ e c, (playback decode_utf8 feed bs).2 = Some e
         ∧ print_err w (py "Warning: " ++ e) = Some c.

(** The plain text is asked for and [screen.display] raises on the screen
    that the bytes [bs] leave. *)
Definition display_fails (decode_utf8 : list byte → pystr)
    (feed : Screen → pystr → Screen * option pystr)
    (display_error : Screen → option pystr)
    (argv : list pystr) (bs : list byte) : Prop :=
  mode_of argv = false
  ∧ is_Some (display_error (playback decode_utf8 feed bs).1).

(** The text of the last [print] of a run that has read the bytes [bs]: the
    line [Written to: ...] when an output file is given, the rendering
    otherwise. *)
Definition final_print (decode_utf8 : list byte → pystr)
    (feed : Screen → pystr → Screen * option pystr) (wide : N → bool)
    (argv : list pystr) (bs : list byte) : pystr :=
  match output_of argv with
  | Some (c :: f) => py "Written to: " ++ c :: f
  | _ => rendering decode_utf8 feed wide bs (mode_of argv)
  end.

(** The reading under which the exit status is not zero only when the input
    argument is missing. *)
Definition nonzero_exit_only_without_input : Prop :=
  ∀ (decode_utf8 : list byte → pystr)
    (feed : Screen → pystr → Screen * option pystr) (wide : N → bool)
    (display_error : Screen → option pystr)
    (w : World) (argv : list pystr),
    (main decode_utf8 feed wide display_error w argv).2 ≠ 0%Z →
    length argv < 2.

(** An emulator that leaves the screen as it is, a width test that finds no
    double-width glyph, and a world without any readable file. *)
Definition idle_feed (screen : Screen) (text : pystr)
    : Screen * option pystr := (screen, None).

Definition no_decode (bs : list byte) : pystr := [].

Definition all_narrow (c : N) : bool := false.

(** A [screen.display] that never raises. *)
Definition display_ok (screen : Screen) : option pystr := None.

Definition empty_world : World :=
  {| read_bytes := λ _, None; write_text := λ _ _, true;
     print_out := λ _, None; print_err := λ _, None |}.

(** A world in which every file reads as the header line followed by
    [Hello], every file can be written and every text printed. *)
Definition hello_world : World :=
  {| read_bytes := λ _, Some [x53; x0a; x48; x65; x6c; x6c; x6f];
     write_text := λ _ _, true;
     print_out := λ _, None; print_err := λ _, None |}.

(** ** The server *)

(** A file name that [view_log] refuses: it contains [/], or it contains
    [..], or it does not end in [.log]. *)
Definition unsafe_name (filename : pystr) : Prop :=
  (∃ a b, filename = a ++ py "/" ++ b)
  ∨ (∃ a b, filename = a ++ py ".." ++ b)
  ∨ ¬ (∃ a, filename = a ++ py ".log").

(** The accesses of a request: those of the state after it that were not in
    the state before it. *)
Definition new_accesses (before after : ServerState) : list Access :=
  drop (length (accesses before)) (accesses after).

(** [html] is the output of a successful run of the clean script on the log
    [logfile], made when the modification time of the log was [m]. *)
Definition derived_from (home : pystr)
    (run_clean : gmap (list N) File → pystr → RunResult)
    (logfile : pystr) (m : Z) (html : pystr) : Prop :=
  ∃ (fs0 : gmap (list N) File) (f : File),
    fs0 !! log_path_of home logfile = Some f
    ∧ mtime f = m
    ∧ run_clean fs0 (log_path_of home logfile) = Completed 0 html.

(** Every entry of the cache is stored under the key of the log and of the
    modification time it was derived from. *)
Definition cache_fresh (home : pystr) (mtime_str : Z → pystr)
    (run_clean : gmap (list N) File → pystr → RunResult)
    (cache : gmap (list N) (list N)) : Prop :=
  ∀ key html,
    cache !! key = Some html →
    ∃ logfile m,
      key = cache_key mtime_str logfile m ∧ derived_from home run_clean logfile m html.

(** The accesses made before the cache is looked at, when no pre-converted
    file is used: there is none, or it is older than the log. *)
Inductive stale_html (fs : gmap (list N) File) (log_path html_path : pystr)
    (l : File) : list Access → Prop :=
  | stale_missing :
      fs !! html_path = None →
      stale_html fs log_path html_path l [Exists log_path; Exists html_path]
  | stale_older (a : File) :
      fs !! html_path = Some a → (mtime a < mtime l)%Z →
      stale_html fs log_path html_path l
        [Exists log_path; Exists html_path; Stat html_path; Stat log_path].

(** The ways through [convert_log_to_html]: from the files [fs] and the
    cache before the call, the value returned, the cache after the call and
    the accesses made. *)
Inductive convert_case (home : pystr) (mtime_str : Z → pystr)
    (run_clean : gmap (list N) File → pystr → RunResult)
    (fs : gmap (list N) File) (logfile : pystr)
    (cache : gmap (list N) (list N))
    : option pystr → gmap (list N) (list N) → list Access → Prop :=
  | case_no_log :
      fs !! log_path_of home logfile = None →
      convert_case home mtime_str run_clean fs logfile cache
        None cache [Exists (log_path_of home logfile)]
  | case_preconverted (l a : File) :
      fs !! log_path_of home logfile = Some l →
      fs !! html_path_of home logfile = Some a →
      (mtime l ≤ mtime a)%Z →
      convert_case home mtime_str run_clean fs logfile cache
        (Some (text a)) cache
        [Exists (log_path_of home logfile); Exists (html_path_of home logfile);
         Stat (html_path_of home logfile); Stat (log_path_of home logfile);
         ReadText (html_path_of home logfile)]
  | case_cache_hit (l : File) (pre : list Access) (html : pystr) :
      fs !! log_path_of home logfile = Some l →
      stale_html fs (log_path_of home logfile) (html_path_of home logfile) l pre →
      cache !! cache_key mtime_str logfile (mtime l) = Some html →
      convert_case home mtime_str run_clean fs logfile cache
        (Some html) cache (pre ++ [Stat (log_path_of home logfile)])
  | case_run_raised (l : File) (pre : list Access) (e : pystr) :
      fs !! log_path_of home logfile = Some l →
      stale_html fs (log_path_of home logfile) (html_path_of home logfile) l pre →
      cache !! cache_key mtime_str logfile (mtime l) = None →
      run_clean fs (log_path_of home logfile) = Raised e →
      convert_case home mtime_str run_clean fs logfile cache
        (Some (error_page e)) cache
        (pre ++ [Stat (log_path_of home logfile);
                 Subprocess (log_path_of home logfile)])
  | case_run_ok (l : File) (pre : list Access) (out : pystr) :
      fs !! log_path_of home logfile = Some l →
      stale_html fs (log_path_of home logfile) (html_path_of home logfile) l pre →
      cache !! cache_key mtime_str logfile (mtime l) = None →
      run_clean fs (log_path_of home logfile) = Completed 0 out →
      convert_case home mtime_str run_clean fs logfile cache
        (Some out) (<[cache_key mtime_str logfile (mtime l) := out]> cache)
        (pre ++ [Stat (log_path_of home logfile);
                 Subprocess (log_path_of home logfile)])
  | case_run_failed (l : File) (pre : list Access) (returncode : Z)
      (out : pystr) :
      fs !! log_path_of home logfile = Some l →
      stale_html fs (log_path_of home logfile) (html_path_of home logfile) l pre →
      cache !! cache_key mtime_str logfile (mtime l) = None →
      run_clean fs (log_path_of home logfile) = Completed returncode out →
      returncode ≠ 0%Z →
      convert_case home mtime_str run_clean fs logfile cache
        None cache
        (pre ++ [Stat (log_path_of home logfile);
                 Subprocess (log_path_of home logfile)]).

(** The run of the clean script failed: it raised, or it completed with a
    return code other than zero. *)
Definition render_failed (r : RunResult) : Prop :=
  match r with
  | Raised _ => True
  | Completed returncode _ => returncode ≠ 0%Z
  end.

(** The request for [filename] runs the clean script. *)
Definition invokes_render (home : pystr) (mtime_str : Z → pystr)
    (run_clean : gmap (list N) File → pystr → RunResult)
    (fs : gmap (list N) File) (filename : pystr) (st : ServerState) : Prop :=
  In (Subprocess (log_path_of home filename))
     (new_accesses st (serve_log home mtime_str run_clean fs filename st).2).

(** The reading under which every failed conversion gives the client a page
    with the error text. *)
Definition failures_give_error_page : Prop :=
  ∀ (home : pystr) (mtime_str : Z → pystr)
    (run_clean : gmap (list N) File → pystr → RunResult)
    (fs : gmap (list N) File) (filename : pystr) (st : ServerState),
    invokes_render home mtime_str run_clean fs filename st →
    render_failed (run_clean fs (log_path_of home filename)) →
    ∃ body, (serve_log home mtime_str run_clean fs filename st).1
            = Page body (py "text/html").

Definition initial_state : ServerState :=
  {| html_cache := ∅; accesses := [] |}.

Definition user_home : pystr := py "/home/user".

(** A formatting of the modification times for the examples: the integer
    followed by [.0]. *)
Definition float_str (m : Z) : pystr := py (pretty m) ++ py ".0".

(** A log directory with the single log [a.log], modified at time 7. *)
Definition one_log : gmap (list N) File :=
  {[ log_path_of user_home (py "a.log") := mkFile 7 (py "raw") ]}.

(** A log directory with [a.log], modified at time 7, and a pre-converted
    [a.html], modified at time 9. *)
Definition log_and_html : gmap (list N) File :=
  <[ html_path_of user_home (py "a.log") := mkFile 9 (py "<html>old</html>") ]>
    one_log.

(** Runs of the clean script: one that exits with status 1, one that times
    out, one that prints a page. *)
Definition run_exit_1 (fs : gmap (list N) File) (log_path : pystr)
    : RunResult := Completed 1 [].

Definition run_timeout (fs : gmap (list N) File) (log_path : pystr)
    : RunResult := Raised (py "timed out").

Definition run_ok (fs : gmap (list N) File) (log_path : pystr)
    : RunResult := Completed 0 (py "<html>page</html>").

(** ** Further vocabulary: the cleaner *)

(** The value of a hexadecimal digit, and of a string of such digits read
    from the left. *)
Definition hex_digit_value (c : N) : N :=
  if (c <? 58)%N then (c - 48)%N else (c - 87)%N.

Definition hex_value (s : pystr) : N :=
  fold_left (λ v c, (16 * v + hex_digit_value c)%N) s 0%N.

(** A lower-case hexadecimal digit: [0]-[9] or [a]-[f]. *)
Definition is_hex_digit (c : N) : bool :=
  ((48 <=? c) && (c <=? 57) || (97 <=? c) && (c <=? 102))%N.

(** [arg == '--html']. *)
Definition is_html_flag (arg : pystr) : bool := str_eqb arg (py "--html").

(** A cell without colours, without bold, whose text is one code point that
    is not one of the three escaped ones and is not double-width. *)
Definition plain_cell (wide : N → bool) (ch : Char) : bool :=
  is_default (fg ch) && is_default (bg ch) && negb (bold ch)
  && negb (str_eqb (data ch) (py "<")) && negb (str_eqb (data ch) (py ">"))
  && negb (str_eqb (data ch) (py "&"))
  && negb (starts_wide wide (data ch))
  && (length (data ch) =? 1).

(** A screen all of whose stored cells are plain. *)
Definition plain_screen (wide : N → bool) (screen : Screen) : bool :=
  forallb (forallb (plain_cell wide)) (buffer screen).



(** A screen of three lines and four columns with plain text on its first
    two lines. *)
Definition plain_rows : Screen :=
  {| columns := 4; lines := 3;
     buffer := [ [glyph "h"; glyph "i"]; [glyph " "; glyph "x"; glyph " "] ] |}.

(** ** Further vocabulary: the raw view *)

(** View raw log file: [raw_log] of the server.  The name is refused with
    status 400 when it contains [/] or [..]; a missing file gives status
    404; otherwise the text of the file is returned as plain text
    ([read_text(errors='replace')], which replaces what it cannot decode;
    the text of a file is its decoded text). *)
Definition raw_log (home : pystr) (fs : gmap (list N) File)
    (filename : pystr) : M Response :=
  let* _ := abort_if (contains (py "/") filename
                      || contains (py "..") filename) 400 in
  let log_path := log_path_of home filename in
  let* log_exists := path_exists fs log_path in
  if negb log_exists then abort 404
  else
    let* body := read_text fs log_path in
    ret (Page body (py "text/plain")).

(** What the client of [/raw/<filename>] receives. *)
Definition serve_raw (home : pystr) (fs : gmap (list N) File)
    (filename : pystr) (st : ServerState) : Response * ServerState :=
  match raw_log home fs filename st with
  | (Ok r, st') => (r, st')
  | (Abort code, st') => (Status code, st')
  | (Crash _, st') => (Status 500, st')
  end.

(** A log directory in which the file [notes] sits beside its own name: a
    name without [.log]. *)
Definition one_note : gmap (list N) File :=
  {[ log_path_of user_home (py "notes") := mkFile 3 (py "raw notes") ]}.

(** ** Further vocabulary: colours *)

(** A CSS colour of the form [#rrggbb]: a hash followed by six lower-case
    hexadecimal digits. *)
Definition css_hex_color (v : pystr) : bool :=
  match v with
  | c :: d => (c =? 35)%N && (length d =? 6) && forallb is_hex_digit d
  | [] => false
  end.

(** The entries of [COLORS], in the order of the program text. *)
Definition COLORS_entries : list (list N * list N) :=
  [ (py "black", py "#000000");
    (py "red", py "#cc0000");
    (py "green", py "#4e9a06");
    (py "brown", py "#c4a000");
    (py "yellow", py "#c4a000");
    (py "blue", py "#3465a4");
    (py "magenta", py "#75507b");
    (py "cyan", py "#06989a");
    (py "white", py "#d3d7cf");
    (py "default", py "#d3d7cf");
    (py "brightblack", py "#555753");
    (py "brightred", py "#ef2929");
    (py "brightgreen", py "#8ae234");
    (py "brightyellow", py "#fce94f");
    (py "brightblue", py "#729fcf");
    (py "brightmagenta", py "#ad7fa8");
    (py "brightcyan", py "#34e2e2");
    (py "brightwhite", py "#eeeeec") ].

(** ** Further vocabulary: accesses *)

(** The path that an access names. *)
Definition access_path (a : Access) : pystr :=
  match a with
  | Exists p | Stat p | ReadText p | Subprocess p => p
  end.

Definition is_subprocess (a : Access) : bool :=
  match a with
  | Subprocess _ => true
  | _ => false
  end.

Definition is_read_text (a : Access) : bool :=
  match a with
  | ReadText _ => true
  | _ => false
  end.

(** A name that is one path component of its own: not empty, without [/],
    and neither [.] nor [..].  Under pathlib [dir / name] is then the entry
    [name] of [dir]. *)
Definition plain_name (name : pystr) : Prop :=
  ¬ In 47%N name ∧ name ≠ [] ∧ name ≠ py "." ∧ name ≠ py "..".

(** ** Further vocabulary: versions of a log *)

(** [html] is the output of a successful run of the clean script on the log
    [logfile] with the text it has in [fs]. *)
Definition derived_from_text (home : pystr)
    (run_clean : gmap (list N) File → pystr → RunResult)
    (fs : gmap (list N) File) (logfile : pystr) (html : pystr) : Prop :=
  ∃ (l : File) (fs0 : gmap (list N) File) (f : File),
    fs !! log_path_of home logfile = Some l
    ∧ fs0 !! log_path_of home logfile = Some f
    ∧ text f = text l
    ∧ run_clean fs0 (log_path_of home logfile) = Completed 0 html.

(** The reading under which a page served from the cache is never derived
    from an older version of the log: after a first request made on the
    files [fs0], a request made on the files [fs] that neither reads a file
    nor runs the clean script returns a page derived from the text that the
    log has in [fs]. *)
Definition never_serves_older_version : Prop :=
  ∀ (home : pystr) (mtime_str : Z → pystr)
    (run_clean : gmap (list N) File → pystr → RunResult)
    (fs0 fs : gmap (list N) File) (logfile html : pystr),
    (∀ a b, mtime_str a = mtime_str b → a = b) →
    let st :=
      (convert_log_to_html home mtime_str run_clean fs0 logfile
         initial_state).2 in
    let r := convert_log_to_html home mtime_str run_clean fs logfile st in
    r.1 = Ok (Some html) →
    List.filter is_read_text (new_accesses st r.2) = [] →
    List.filter is_subprocess (new_accesses st r.2) = [] →
    derived_from_text home run_clean fs logfile html.

(** A run of the clean script that prints the text of the log. *)
Definition run_echo (fs : gmap (list N) File) (log_path : pystr)
    : RunResult :=
  match fs !! log_path with
  | Some f => Completed 0 (text f)
  | None => Completed 1 []
  end.

(** The log [a.log] with [st_mtime] 7, before and after its text is
    rewritten without a change of [st_mtime]. *)
Definition log_before : gmap (list N) File :=
  {[ log_path_of user_home (py "a.log") := mkFile 7 (py "old") ]}.

Definition log_after : gmap (list N) File :=
  {[ log_path_of user_home (py "a.log") := mkFile 7 (py "new") ]}.

(** * Proofs *)

(** ** Cells *)

Lemma str_eqb_eq (a b : pystr) : str_eqb a b = true ↔ a = b.
Proof. unfold str_eqb. apply bool_decide_eq_true. Qed.

Lemma str_eqb_neq (a b : pystr) : str_eqb a b = false ↔ a ≠ b.
Proof. unfold str_eqb. apply bool_decide_eq_false. Qed.

Lemma span_is_span (styles : list pystr) (d : pystr) :
  is_span (span styles d) = true.
Proof. reflexivity. Qed.

Lemma char_styles_nil (ch : Char) : char_styles ch = [] ↔ styled ch = false.
Proof.
  unfold char_styles, styled, fg_styles, bg_styles, bold_styles, adds_style.
  destruct (truthy (fg ch) && negb (is_default (fg ch))),
    (truthy (bg ch) && negb (is_default (bg ch))), (bold ch);
    simpl; split; intros H; try reflexivity; discriminate H.
Qed.

Lemma char_to_html_blank (ch : Char) :
  blank_default ch = true → char_to_html ch = py " ".
Proof. unfold char_to_html, blank_default. intros ->. reflexivity. Qed.

Lemma char_to_html_unstyled (ch : Char) :
  blank_default ch = false → styled ch = false →
  char_to_html ch = escape_data (data ch).
Proof.
  unfold char_to_html, blank_default. intros -> Hs.
  apply char_styles_nil in Hs. rewrite Hs. reflexivity.
Qed.

Lemma char_to_html_styled (ch : Char) :
  blank_default ch = false → styled ch = true →
  char_to_html ch = span (char_styles ch) (escape_data (data ch)).
Proof.
  unfold char_to_html, blank_default. intros -> Hs.
  destruct (char_styles ch) eqn:E; [|reflexivity].
  apply char_styles_nil in E. congruence.
Qed.

Lemma escape_data_other (d : pystr) :
  d ≠ py "<" → d ≠ py ">" → d ≠ py "&" → escape_data d = d.
Proof.
  intros H1 H2 H3. unfold escape_data.
  apply str_eqb_neq in H1, H2, H3. rewrite H1, H2, H3. reflexivity.
Qed.

Lemma rendered_as_escape (ch : Char) : rendered_as ch (escape_data (data ch)).
Proof.
  destruct (blank_default ch) eqn:Hb.
  - apply rendered_bare. rewrite (char_to_html_blank _ Hb).
    unfold blank_default in Hb.
    apply andb_true_iff in Hb as [Hb _]. apply andb_true_iff in Hb as [Hb _].
    apply str_eqb_eq in Hb. rewrite Hb. reflexivity.
  - destruct (styled ch) eqn:Hs.
    + apply rendered_in_span. apply char_to_html_styled; assumption.
    + apply rendered_bare. apply char_to_html_unstyled; assumption.
Qed.

Lemma span_not_space (styles : list pystr) (d : pystr) :
  span styles d ≠ py " ".
Proof. unfold span. simpl. discriminate. Qed.

Lemma escape_data_space (d : pystr) : escape_data d = py " " → d = py " ".
Proof.
  unfold escape_data.
  destruct (str_eqb d (py "<")); [discriminate|].
  destruct (str_eqb d (py ">")); [discriminate|].
  destruct (str_eqb d (py "&")); [discriminate|].
  auto.
Qed.

(** C3, as the code has it: a space with default foreground and default
    background is emitted as a bare space, whatever its bold flag; any other
    cell is wrapped in a span exactly when it has a style (a foreground or a
    background that is true and not ['default'], or the bold flag), the
    styles being [color], [background-color] and [font-weight:bold] in this
    order; a cell without style is emitted as its escaped glyph, unwrapped. *)
Theorem char_to_html_wrapping (ch : Char) :
  (blank_default ch = true → char_to_html ch = py " ")
  ∧ (blank_default ch = false → styled ch = true →
     char_to_html ch
     = py "<span style=" ++ [34%N] ++ join (py ";") (char_styles ch)
       ++ [34%N] ++ py ">" ++ escape_data (data ch) ++ py "</span>"
     ∧ is_span (char_to_html ch) = true)
  ∧ (∀ a b c : pystr,
       join (py ";") [a] = a
       ∧ join (py ";") [a; b] = a ++ py ";" ++ b
       ∧ join (py ";") [a; b; c] = a ++ py ";" ++ b ++ py ";" ++ c)
  ∧ (blank_default ch = false → styled ch = false →
     char_to_html ch = escape_data (data ch))
  ∧ (char_to_html ch = py " " ↔
     blank_default ch = true ∨ (data ch = py " " ∧ styled ch = false))
  ∧ char_styles ch =
      (if adds_style (fg ch) then [py "color:" ++ fg_color (fg ch)] else [])
      ++ (if adds_style (bg ch)
          then [py "background-color:" ++ bg_color (bg ch)] else [])
      ++ (if bold ch then [py "font-weight:bold"] else []).
Proof.
  split; [apply char_to_html_blank|].
  split.
  { intros Hb Hs. rewrite (char_to_html_styled _ Hb Hs).
    split; [reflexivity | apply span_is_span]. }
  split; [intros a b c; repeat split|].
  split; [apply char_to_html_unstyled|].
  split; [|reflexivity].
  split.
  - intros Hout. destruct (blank_default ch) eqn:Hb; [left; reflexivity|].
    right. destruct (styled ch) eqn:Hs.
    + rewrite (char_to_html_styled _ Hb Hs) in Hout.
      destruct (span_not_space _ _ Hout).
    + rewrite (char_to_html_unstyled _ Hb Hs) in Hout.
      split; [apply escape_data_space; assumption | reflexivity].
  - intros [Hb | [Hd Hs]]; [apply char_to_html_blank; assumption|].
    destruct (blank_default ch) eqn:Hb; [apply char_to_html_blank; assumption|].
    rewrite (char_to_html_unstyled _ Hb Hs), Hd. reflexivity.
Qed.

Lemma char_to_html_wrapping_witness :
  char_to_html default_char = py " "
  ∧ char_to_html bold_red_H
    = py "<span style=" ++ [34%N] ++ py "color:#cc0000;font-weight:bold"
      ++ [34%N] ++ py ">H</span>"
  ∧ char_to_html plain_glyph = py "a".
Proof.
  split; [|split].
  - apply (proj1 (char_to_html_wrapping default_char)). reflexivity.
  - apply (proj1 (proj2 (char_to_html_wrapping bold_red_H)));
      vm_compute; reflexivity.
  - apply (proj1 (proj2 (proj2 (proj2 (char_to_html_wrapping plain_glyph)))));
      vm_compute; reflexivity.
Defined.

(** C3 as stated fails: the glyph [a] with default colours and no bold is
    neither the blank default cell nor wrapped in a span. *)
Lemma unstyled_glyph_not_wrapped : ¬ every_other_cell_wrapped.
Proof.
  intros H. destruct (H plain_glyph) as [_ Hw].
  assert (Hb : blank_default plain_glyph = false) by (vm_compute; reflexivity).
  specialize (Hw Hb). vm_compute in Hw. discriminate Hw.
Qed.

(** ** Colours *)

Lemma resolved_same_color (c : color) :
  resolved c = true → fg_color c = bg_color c.
Proof.
  destruct c as [s | n | b]; unfold resolved, fg_color, bg_color;
    [|reflexivity|discriminate].
  unfold dict_get. intros H.
  destruct (COLORS !! s) as [h|] eqn:E1; [reflexivity|].
  destruct (COLORS !! (py "bright" ++ s)) as [h|] eqn:E2; [reflexivity|].
  rewrite !bool_decide_eq_false_2 in H by (intros [? ?]; discriminate).
  discriminate H.
Qed.

Lemma unresolved_fallbacks (c : color) :
  resolved c = false →
  fg_color c = py "#d3d7cf" ∧ bg_color c = py "#000000".
Proof.
  destruct c as [s | n | b]; unfold resolved, fg_color, bg_color;
    [|discriminate|split; reflexivity].
  unfold dict_get. intros H. apply orb_false_iff in H as [H1 H2].
  apply bool_decide_eq_false in H1, H2.
  destruct (COLORS !! s) as [h|]; [destruct H1; eauto|].
  destruct (COLORS !! (py "bright" ++ s)) as [h|]; [destruct H2; eauto|].
  split; reflexivity.
Qed.

(** C4, as the code has it: the colour mapping is a function of the colour
    value alone.  For an integer value and for a name that [COLORS] resolves
    (directly or with the prefix ['bright']) the foreground and the
    background role give the same hexadecimal value, and the emitted style
    differs only in the property name; for any other value the foreground
    role falls back to ['#d3d7cf'] and the background role to ['#000000']. *)
Theorem color_roles (c : color) :
  (resolved c = true → fg_color c = bg_color c)
  ∧ (resolved c = false →
     fg_color c = py "#d3d7cf" ∧ bg_color c = py "#000000")
  ∧ fg_styles c = (if adds_style c then [py "color:" ++ fg_color c] else [])
  ∧ bg_styles c =
      (if adds_style c then [py "background-color:" ++ bg_color c] else []).
Proof.
  split; [apply resolved_same_color|].
  split; [apply unresolved_fallbacks|].
  split; reflexivity.
Qed.

Lemma color_roles_witness :
  fg_color (CStr (py "magenta")) = bg_color (CStr (py "magenta"))
  ∧ fg_color (CInt 16711935) = bg_color (CInt 16711935)
  ∧ (fg_color (CStr (py "purple")) = py "#d3d7cf"
     ∧ bg_color (CStr (py "purple")) = py "#000000").
Proof.
  split; [|split].
  - apply (proj1 (color_roles (CStr (py "magenta")))). vm_compute. reflexivity.
  - apply (proj1 (color_roles (CInt 16711935))). reflexivity.
  - apply (proj1 (proj2 (color_roles (CStr (py "purple"))))).
    vm_compute. reflexivity.
Defined.

(** C4 as stated fails: a name outside the table gets ['#d3d7cf'] as a
    foreground and ['#000000'] as a background. *)
Lemma fallback_differs_by_role : ¬ same_hex_in_both_roles.
Proof.
  intros H. specialize (H (CStr (py "purple"))).
  vm_compute in H. discriminate H.
Qed.

(** ** Escaping *)

(** A cell whose whole text is [<], [>] or [&] is rendered with [&lt;],
    [&gt;] or [&amp;] in the place of the text; any other text, the double
    quotation mark among them, stands in the output as it is, bare or
    between the tags of the cell's styles. *)
Lemma html_escaping (ch : Char) :
  (data ch = py "<" → rendered_as ch (py "&lt;"))
  ∧ (data ch = py ">" → rendered_as ch (py "&gt;"))
  ∧ (data ch = py "&" → rendered_as ch (py "&amp;"))
  ∧ (data ch ≠ py "<" → data ch ≠ py ">" → data ch ≠ py "&" →
     rendered_as ch (data ch)).
Proof.
  pose proof (rendered_as_escape ch) as H.
  repeat split.
  - intros E. rewrite E in H. exact H.
  - intros E. rewrite E in H. exact H.
  - intros E. rewrite E in H. exact H.
  - intros H1 H2 H3. rewrite (escape_data_other _ H1 H2 H3) in H. exact H.
Qed.

Lemma html_escaping_witness :
  rendered_as quote_cell dquote
  ∧ rendered_as (mkChar (py "<") (CStr (py "default")) (CStr (py "default")) false)
      (py "&lt;").
Proof.
  split.
  - apply (proj2 (proj2 (proj2 (html_escaping quote_cell))));
      vm_compute; discriminate.
  - apply (proj1 (html_escaping (mkChar (py "<") (CStr (py "default"))
                                   (CStr (py "default")) false))).
    reflexivity.
Defined.

(** C5: the escape is missed for a cell whose text has more than one code
    point.  The cell that holds a less-than sign with a combining accent is
    rendered with the raw sign, while the cell that holds the sign alone is
    rendered as [&lt;]. *)
Theorem accented_glyph_not_escaped :
  char_to_html accented_less_than = [60%N; 769%N]
  ∧ In 60%N (char_to_html accented_less_than)
  ∧ char_to_html (glyph "<") = py "&lt;".
Proof.
  split; [vm_compute; reflexivity|].
  split; [vm_compute; auto | vm_compute; reflexivity].
Qed.

(** ** Stripping *)

Lemma rstrip_nil_iff (s : pystr) : rstrip s = [] ↔ forallb is_space s = true.
Proof.
  induction s as [|c s IH]; simpl; [tauto|].
  destruct (rstrip s) as [|r rs] eqn:E.
  - destruct (is_space c); simpl.
    + tauto.
    + split; intros H; discriminate H.
  - split; [discriminate|]. intros H.
    apply andb_true_iff in H as [_ H]. apply IH in H. discriminate H.
Qed.

Lemma rstrip_idem (s : pystr) : rstrip (rstrip s) = rstrip s.
Proof.
  induction s as [|c s IH]; simpl; [reflexivity|].
  destruct (rstrip s) as [|r rs] eqn:E.
  - destruct (is_space c) eqn:Ec; simpl; [reflexivity|]. rewrite Ec. reflexivity.
  - change (rstrip (c :: r :: rs)) with
      (match rstrip (r :: rs) with
       | [] => if is_space c then [] else [c]
       | x => c :: x
       end).
    rewrite IH. reflexivity.
Qed.

Lemma rstrip_last (s : pystr) :
  rstrip s ≠ [] → ∃ p c, rstrip s = p ++ [c] ∧ is_space c = false.
Proof.
  induction s as [|c s IH]; simpl; [congruence|].
  destruct (rstrip s) as [|r rs] eqn:E.
  - destruct (is_space c) eqn:Ec; [congruence|].
    intros _. exists [], c. split; [reflexivity | assumption].
  - intros _. destruct IH as (p & d & Hp & Hd); [discriminate|].
    exists (c :: p), d. rewrite Hp. split; [reflexivity | assumption].
Qed.

Lemma lstrip_keeps_last (p : pystr) (c : N) :
  is_space c = false → lstrip (p ++ [c]) ≠ [].
Proof.
  intros Hc. induction p as [|a p IH]; simpl.
  - rewrite Hc. discriminate.
  - destruct (is_space a); [exact IH | discriminate].
Qed.

Lemma strip_of_rstrip (s : pystr) :
  nonempty (rstrip s) = true → nonempty (strip (rstrip s)) = true.
Proof.
  intros H. unfold strip. rewrite rstrip_idem.
  destruct (rstrip_last s) as (p & c & Hp & Hc).
  { intros E. rewrite E in H. discriminate H. }
  rewrite Hp. pose proof (lstrip_keeps_last p c Hc) as Hl.
  destruct (lstrip (p ++ [c])); [congruence | reflexivity].
Qed.

Lemma rstrip_spaces (s : pystr) :
  Forall (λ c, c = 32%N) s → rstrip s = [].
Proof.
  intros H. apply rstrip_nil_iff. induction H as [|c s Hc _ IH]; [reflexivity|].
  simpl. rewrite Hc, IH. reflexivity.
Qed.

(** ** The loops that collect lines *)

Lemma collect_fold {A : Type} (f : A → pystr) (xs : list A) (acc : list pystr) :
  fold_left (λ acc x, append_if_nonempty acc (f x)) xs acc
  = acc ++ List.filter nonempty (map f xs).
Proof.
  revert acc. induction xs as [|x xs IH]; intros acc; simpl.
  - rewrite app_nil_r. reflexivity.
  - rewrite IH. unfold append_if_nonempty.
    destruct (nonempty (f x)); [rewrite <- app_assoc|]; reflexivity.
Qed.

Lemma html_lines_filter (screen : Screen) :
  html_lines screen
  = List.filter nonempty
      (map (λ y, line_str (columns screen) (line_at screen y))
           (range (lines screen))).
Proof. unfold html_lines. rewrite collect_fold. reflexivity. Qed.

Lemma text_lines_filter (wide : N → bool) (screen : Screen) :
  text_lines wide screen
  = List.filter nonempty (map rstrip (display wide screen)).
Proof.
  unfold text_lines.
  rewrite (collect_fold rstrip (display wide screen) []). reflexivity.
Qed.

Lemma pop_blank_id (ls : list pystr) :
  Forall (λ l, nonempty (strip l) = true) ls → remove_trailing_empty ls = ls.
Proof.
  intros H. unfold remove_trailing_empty.
  assert (Hr : pop_blank (rev ls) = rev ls).
  { apply Forall_rev in H. destruct H as [|l rest Hl _]; [reflexivity|].
    simpl. rewrite Hl. reflexivity. }
  rewrite Hr. apply rev_involutive.
Qed.

Lemma filter_rstrip_nonblank (rows : list pystr) :
  Forall (λ l, nonempty (strip l) = true)
         (List.filter nonempty (map rstrip rows)).
Proof.
  induction rows as [|r rows IH]; simpl; [constructor|].
  destruct (nonempty (rstrip r)) eqn:E; [|exact IH].
  constructor; [apply strip_of_rstrip; assumption | exact IH].
Qed.

Lemma html_lines_nonblank (screen : Screen) :
  Forall (λ l, nonempty (strip l) = true) (html_lines screen).
Proof.
  rewrite html_lines_filter. unfold line_str.
  rewrite <- (map_map (λ y, join [] (line_html (columns screen) (line_at screen y)))
                      rstrip).
  apply filter_rstrip_nonblank.
Qed.

Lemma text_lines_nonblank (wide : N → bool) (screen : Screen) :
  Forall (λ l, nonempty (strip l) = true) (text_lines wide screen).
Proof. rewrite text_lines_filter. apply filter_rstrip_nonblank. Qed.

Lemma nonblank_not_empty (ls : list pystr) :
  Forall (λ l, nonempty (strip l) = true) ls → ¬ In [] ls.
Proof.
  intros H Hin. rewrite Forall_forall in H.
  apply list_elem_of_In in Hin. specialize (H _ Hin). discriminate H.
Qed.

Lemma rows_of_screen (cols : nat) (rows : list (list Char)) :
  map (line_at (screen_of_rows cols rows)) (range (length rows)) = rows.
Proof.
  unfold line_at, range. simpl.
  assert (G : ∀ pre rest : list (list Char),
             map (λ y, default [] ((pre ++ rest) !! y))
                 (seq (length pre) (length rest)) = rest).
  { intros pre rest. revert pre. induction rest as [|r rest IH]; intros pre.
    - reflexivity.
    - simpl. f_equal.
      + rewrite list_lookup_middle by reflexivity. reflexivity.
      + specialize (IH (pre ++ [r])). rewrite <- app_assoc in IH. simpl in IH.
        rewrite length_app in IH. simpl in IH.
        replace (length pre + 1) with (S (length pre)) in IH by lia.
        exact IH. }
  apply (G [] rows).
Qed.

Lemma html_lines_rows (cols : nat) (rows : list (list Char)) :
  html_lines (screen_of_rows cols rows)
  = List.filter nonempty (map (line_str cols) rows).
Proof.
  rewrite html_lines_filter. simpl.
  rewrite <- (map_map (line_at (screen_of_rows cols rows)) (line_str cols)).
  rewrite rows_of_screen. reflexivity.
Qed.

Lemma text_lines_rows (wide : N → bool) (cols : nat)
    (rows : list (list Char)) :
  text_lines wide (screen_of_rows cols rows)
  = List.filter nonempty (map (λ row, rstrip (row_text wide cols row)) rows).
Proof.
  rewrite text_lines_filter. unfold display. simpl.
  rewrite map_map.
  rewrite <- (map_map (line_at (screen_of_rows cols rows))
                      (λ row, rstrip (row_text wide cols row))).
  rewrite rows_of_screen. reflexivity.
Qed.

(** ** The scan for the last non-empty character *)

Lemma scan_last (P : nat → bool) (a n init : nat) :
  ∃ k, k = fold_left (λ last x, if P x then x else last) (seq a n) init
  ∧ ((k = init ∧ ∀ x, a ≤ x < a + n → P x = false)
     ∨ (a ≤ k < a + n ∧ P k = true ∧ ∀ x, k < x < a + n → P x = false)).
Proof.
  induction n as [|n (k & Ek & IH)].
  - exists init. split; [reflexivity|].
    left. split; [reflexivity | intros x Hx; lia].
  - rewrite seq_S, fold_left_app. rewrite <- Ek. simpl.
    eexists. split; [reflexivity|].
    destruct (P (a + n)) eqn:E.
    + right. split; [lia|]. split; [assumption | intros x Hx; lia].
    + destruct IH as [[Hk Hall] | (Hk & HP & Hall)].
      * left. split; [assumption|]. intros x Hx.
        destruct (decide (x = a + n)) as [->|]; [assumption | apply Hall; lia].
      * right. split; [lia|]. split; [assumption|]. intros x Hx.
        destruct (decide (x = a + n)) as [->|]; [assumption | apply Hall; lia].
Qed.

Lemma last_char_cases (cols : nat) (line : list Char) :
  (last_char cols line = 0
   ∧ ∀ x, x < cols → non_empty_cell (char_at line x) = false)
  ∨ (last_char cols line < cols
     ∧ non_empty_cell (char_at line (last_char cols line)) = true
     ∧ ∀ x, last_char cols line < x → x < cols →
            non_empty_cell (char_at line x) = false).
Proof.
  unfold last_char, range.
  destruct (scan_last (λ x, non_empty_cell (char_at line x)) 0 cols 0)
    as (k & <- & [[Hk Hall] | (Hk & HP & Hall)]).
  - left. split; [assumption | intros x Hx; apply Hall; lia].
  - right. split; [lia|]. split; [assumption|].
    intros x H1 H2. apply Hall. lia.
Qed.

Lemma blank_default_not_non_empty (ch : Char) :
  blank_default ch = true → non_empty_cell ch = false.
Proof.
  unfold blank_default, non_empty_cell. intros H.
  apply andb_true_iff in H as [H Hbg]. apply andb_true_iff in H as [Hd _].
  rewrite Hd, Hbg. reflexivity.
Qed.

Lemma blank_default_data (ch : Char) :
  blank_default ch = true → data ch = py " ".
Proof.
  unfold blank_default. intros H.
  apply andb_true_iff in H as [H _]. apply andb_true_iff in H as [Hd _].
  apply str_eqb_eq. assumption.
Qed.

Lemma char_at_blank_row (line : list Char) (x : nat) :
  blank_row line = true → blank_default (char_at line x) = true.
Proof.
  unfold blank_row, char_at. intros H.
  destruct (line !! x) as [ch|] eqn:E; simpl; [|reflexivity].
  rewrite forallb_forall in H. apply H.
  apply list_elem_of_In. eapply list_elem_of_lookup_2. exact E.
Qed.

Lemma line_str_blank_row (cols : nat) (line : list Char) :
  blank_row line = true → line_str cols line = [].
Proof.
  intros Hb. unfold line_str, line_html.
  destruct (last_char_cases cols line) as [[Hk _] | (_ & HP & _)].
  - rewrite Hk. simpl.
    rewrite (char_to_html_blank _ (char_at_blank_row line 0 Hb)).
    reflexivity.
  - rewrite (blank_default_not_non_empty _ (char_at_blank_row line _ Hb)) in HP.
    discriminate HP.
Qed.

Lemma render_spaces (wide : N → bool) (skip : bool) (cells : list Char) :
  Forall (λ ch, data ch = py " ") cells →
  Forall (λ c, c = 32%N) (concat (render wide skip cells)).
Proof.
  intros H. revert skip. induction H as [|ch cells Hd _ IH]; intros skip.
  - constructor.
  - simpl. destruct skip; [apply IH|].
    simpl. rewrite Hd. constructor; [reflexivity | apply IH].
Qed.

Lemma row_text_blank_row (wide : N → bool) (cols : nat) (line : list Char) :
  blank_row line = true → rstrip (row_text wide cols line) = [].
Proof.
  intros Hb. apply rstrip_spaces. unfold row_text.
  apply render_spaces. apply Forall_forall. intros ch Hin.
  apply list_elem_of_In, in_map_iff in Hin as (x & <- & _).
  apply blank_default_data, char_at_blank_row, Hb.
Qed.

(** ** Rows *)

(** C2, as the code has it: the scan looks at the glyph and at the
    background of a cell, not at its foreground.  The cut-point is the last
    column below the width whose glyph is not a space or whose background is
    not ['default'], and column 0 when there is none; the cells of the row
    are emitted from column 0 to the cut-point, and no cell beyond it. *)
Theorem last_char_cut_point (cols : nat) (line : list Char) :
  ((∀ x, x < cols → non_empty_cell (char_at line x) = false) →
   last_char cols line = 0)
  ∧ (∀ x, x < cols → non_empty_cell (char_at line x) = true →
     x ≤ last_char cols line ∧ last_char cols line < cols
     ∧ non_empty_cell (char_at line (last_char cols line)) = true)
  ∧ line_html cols line
    = map (λ x, char_to_html (char_at line x)) (seq 0 (last_char cols line + 1))
  ∧ length (line_html cols line) = last_char cols line + 1
  ∧ line_str cols line = rstrip (concat (line_html cols line)).
Proof.
  split; [|split; [|split; [|split]]].
  - intros Hall.
    destruct (last_char_cases cols line) as [[Hk _] | (Hlt & HP & _)];
      [assumption|].
    rewrite (Hall _ Hlt) in HP. discriminate HP.
  - intros x Hx HPx.
    destruct (last_char_cases cols line) as [[_ Hall] | (Hlt & HP & Hall)].
    + rewrite (Hall _ Hx) in HPx. discriminate HPx.
    + split; [|split; assumption].
      destruct (decide (x ≤ last_char cols line)) as [|Hn]; [assumption|].
      rewrite (Hall x) in HPx by lia. discriminate HPx.
  - reflexivity.
  - unfold line_html, range. rewrite length_map, length_seq. reflexivity.
  - unfold line_str. f_equal.
    induction (line_html cols line) as [|p [|q rest] IH]; simpl.
    + reflexivity.
    + rewrite app_nil_r. reflexivity.
    + simpl in IH. rewrite IH. reflexivity.
Qed.

Lemma last_char_cut_point_witness :
  last_char 3 [glyph "a"; red_space; glyph " "] = 0
  ∧ (1 ≤ last_char 3 [glyph " "; glyph "b"; red_space]
     ∧ last_char 3 [glyph " "; glyph "b"; red_space] < 3
     ∧ non_empty_cell
         (char_at [glyph " "; glyph "b"; red_space]
                  (last_char 3 [glyph " "; glyph "b"; red_space])) = true).
Proof.
  split.
  - reflexivity.
  - apply (proj1 (proj2 (last_char_cut_point 3 [glyph " "; glyph "b"; red_space]))
             1); [lia | reflexivity].
Defined.

(** C2 as stated fails: in the row [a], red space, the space with a red
    foreground differs from the blank default cell, but the scan stops at
    column 0 and the cell is not emitted. *)
Lemma foreground_not_scanned : ¬ cut_point_counts_foreground.
Proof.
  intros H. specialize (H 2 [glyph "a"; red_space]).
  vm_compute in H. discriminate H.
Qed.

(** C1, as the code has it: both backends append a row only when it is not
    empty after trimming, so a fully blank row is omitted by [render_text]
    and by [screen_to_html] alike, wherever it lies: the output for a screen
    is the output for the screen without that row.  No line of either output
    is empty, and the removal of trailing empty lines changes nothing. *)
Theorem blank_rows_omitted (wide : N → bool) (cols : nat)
    (rows1 rows2 : list (list Char)) (row : list Char) :
  blank_row row = true →
  screen_to_html (screen_of_rows cols (rows1 ++ row :: rows2))
  = screen_to_html (screen_of_rows cols (rows1 ++ rows2))
  ∧ render_text wide (screen_of_rows cols (rows1 ++ row :: rows2))
    = render_text wide (screen_of_rows cols (rows1 ++ rows2))
  ∧ ¬ In [] (html_lines (screen_of_rows cols (rows1 ++ row :: rows2)))
  ∧ screen_to_html (screen_of_rows cols (rows1 ++ row :: rows2))
    = join nl (html_lines (screen_of_rows cols (rows1 ++ row :: rows2))).
Proof.
  intros Hb.
  assert (Hh : html_lines (screen_of_rows cols (rows1 ++ row :: rows2))
               = html_lines (screen_of_rows cols (rows1 ++ rows2))).
  { rewrite !html_lines_rows, !map_app, !List.filter_app. simpl.
    rewrite (line_str_blank_row cols row Hb). reflexivity. }
  assert (Ht : text_lines wide (screen_of_rows cols (rows1 ++ row :: rows2))
               = text_lines wide (screen_of_rows cols (rows1 ++ rows2))).
  { rewrite !text_lines_rows, !map_app, !List.filter_app. simpl.
    rewrite (row_text_blank_row wide cols row Hb). reflexivity. }
  unfold screen_to_html, render_text. rewrite Hh, Ht.
  split; [reflexivity|]. split; [reflexivity|]. split.
  - apply nonblank_not_empty. rewrite <- Hh. apply html_lines_nonblank.
  - rewrite pop_blank_id; [reflexivity|]. rewrite <- Hh. apply html_lines_nonblank.
Qed.

Lemma blank_rows_omitted_witness :
  screen_to_html three_rows
  = screen_to_html (screen_of_rows 3 [ [glyph "a"]; [glyph "b"] ])
  ∧ render_text all_narrow three_rows
    = render_text all_narrow (screen_of_rows 3 [ [glyph "a"]; [glyph "b"] ]).
Proof.
  destruct (blank_rows_omitted all_narrow 3 [ [glyph "a"] ] [ [glyph "b"] ] [])
    as (H1 & H2 & _); [reflexivity|].
  split; [exact H1 | exact H2].
Defined.

(** C1 as stated fails: the screen [a], blank row, [b] has an interior blank
    row, and its HTML has the two lines [a] and [b] with no empty line
    between them. *)
Lemma html_drops_interior_blank_row : ¬ html_keeps_interior_blank_rows.
Proof.
  intros H. specialize (H three_rows 1).
  assert (Hi : interior_blank_row three_rows 1).
  { split; [reflexivity|]. split.
    - exists 0. split; [lia | reflexivity].
    - exists 2. split; [lia|]. split; [simpl; lia | reflexivity]. }
  specialize (H Hi). vm_compute in H.
  destruct H as [H | [H | []]]; discriminate H.
Qed.

(** ** The command line *)

Lemma endswith_nonempty (p s : pystr) :
  p ≠ [] → endswith p s = true → nonempty s = true.
Proof.
  intros Hp H. destruct s as [|c s]; [|reflexivity].
  unfold endswith in H. simpl in H.
  destruct (rev p) as [|a r] eqn:E; [|discriminate H].
  apply (f_equal (@rev N)) in E. rewrite rev_involutive in E.
  simpl in E. contradiction.
Qed.

Section CommandLine.

Variable decode_utf8 : list byte → pystr.
Variable feed : Screen → pystr → Screen * option pystr.
Variable wide : N → bool.
Variable display_error : Screen → option pystr.
Variable w : World.

Lemma main_usage (argv : list pystr) :
  length argv < 2 → (main decode_utf8 feed wide display_error w argv).2 ≠ 0%Z.
Proof.
  intros H. unfold main.
  destruct (Nat.ltb_spec (length argv) 2) as [_|Hge]; [|lia].
  destruct (print_lines w usage) as [done [c|]]; simpl; discriminate.
Qed.

Lemma main_runs (argv : list pystr) :
  2 ≤ length argv →
  main decode_utf8 feed wide display_error w argv
  = match clean_log decode_utf8 feed wide display_error w (input_of argv) (output_of argv)
            (mode_of argv) with
    | (eff, inl _) => (eff, 0%Z)
    | (eff, inr c) => (eff, Z.pos c)
    end.
Proof.
  intros H. unfold main, mode_of, input_of, output_of, html_flag_of.
  destruct (Nat.ltb_spec (length argv) 2) as [Hlt|_]; [lia|].
  destruct (scan_args (drop 2 argv)) as [o h]. reflexivity.
Qed.

Lemma clean_log_unreadable (input_file : pystr) (output_file : option pystr)
    (html : bool) :
  read_bytes w input_file = None →
  clean_log decode_utf8 feed wide display_error w input_file output_file html
  = (mkEffects [] [] [], inr 1%positive).
Proof. intros H. unfold clean_log. rewrite H. reflexivity. Qed.

Lemma clean_log_cases (input_file : pystr) (output_file : option pystr)
    (html : bool) (bs : list byte) :
  read_bytes w input_file = Some bs →
  clean_log decode_utf8 feed wide display_error w input_file output_file html
  = match warn w (playback decode_utf8 feed bs).2 with
    | (warnings, Some c) => (mkEffects [] warnings [], inr c)
    | (warnings, None) =>
        if negb html
           && bool_decide
                (is_Some (display_error (playback decode_utf8 feed bs).1))
        then (mkEffects [] warnings [], inr 1%positive)
        else
        match output_file with
        | Some (c :: f) =>
            if write_text w (c :: f) (rendering decode_utf8 feed wide bs html)
            then
              match print_out w (py "Written to: " ++ c :: f) with
              | None =>
                  (mkEffects [py "Written to: " ++ c :: f] warnings
                     [(c :: f, rendering decode_utf8 feed wide bs html)],
                   inl (rendering decode_utf8 feed wide bs html))
              | Some k =>
                  (mkEffects [] warnings
                     [(c :: f, rendering decode_utf8 feed wide bs html)],
                   inr k)
              end
            else (mkEffects [] warnings [], inr 1%positive)
        | _ =>
            match print_out w (rendering decode_utf8 feed wide bs html) with
            | None =>
                (mkEffects [rendering decode_utf8 feed wide bs html]
                   warnings [],
                 inl (rendering decode_utf8 feed wide bs html))
            | Some k => (mkEffects [] warnings [], inr k)
            end
        end
    end.
Proof.
  intros Hr. unfold clean_log, rendering. rewrite Hr.
  destruct (playback decode_utf8 feed bs) as [screen exc]. simpl.
  destruct (warn w exc) as [warnings [c|]]; [reflexivity|].
  destruct (negb html && bool_decide (is_Some (display_error screen)));
    [reflexivity|].
  destruct output_file as [[|c f]|]; reflexivity.
Qed.

Lemma display_fails_guard (argv : list pystr) (bs : list byte) :
  negb (mode_of argv)
  && bool_decide (is_Some (display_error (playback decode_utf8 feed bs).1))
  = true
  ↔ display_fails decode_utf8 feed display_error argv bs.
Proof.
  unfold display_fails.
  rewrite andb_true_iff, negb_true_iff, bool_decide_eq_true. tauto.
Qed.

Lemma warn_fails (bs : list byte) (warnings : list pystr) (c : positive) :
  warn w (playback decode_utf8 feed bs).2 = (warnings, Some c) →
  warning_fails decode_utf8 feed w bs.
Proof.
  unfold warn, warning_fails.
  destruct (playback decode_utf8 feed bs).2 as [e|]; [|discriminate].
  destruct (print_err w (py "Warning: " ++ e)) as [k|] eqn:E; [|discriminate].
  intros _. exists e, k. auto.
Qed.

Lemma warn_passes (bs : list byte) (warnings : list pystr) :
  warn w (playback decode_utf8 feed bs).2 = (warnings, None) →
  ¬ warning_fails decode_utf8 feed w bs
  ∧ warnings = match (playback decode_utf8 feed bs).2 with
               | Some e => [py "Warning: " ++ e]
               | None => []
               end.
Proof.
  unfold warn, warning_fails.
  destruct (playback decode_utf8 feed bs).2 as [e|].
  - destruct (print_err w (py "Warning: " ++ e)) as [k|] eqn:E;
      [discriminate|].
    intros H. injection H as <-. split; [|reflexivity].
    intros (e' & c & He & Hc). injection He as <-. congruence.
  - intros H. injection H as <-. split; [|reflexivity].
    intros (e' & c & He & _). discriminate He.
Qed.

Lemma warn_not_failing (bs : list byte) :
  ¬ warning_fails decode_utf8 feed w bs →
  ∃ warnings, warn w (playback decode_utf8 feed bs).2 = (warnings, None).
Proof.
  intros H.
  destruct (warn w (playback decode_utf8 feed bs).2) as [ws [c|]] eqn:E.
  - destruct H. exact (warn_fails _ _ _ E).
  - eauto.
Qed.

Lemma main_status_after_read (argv : list pystr) (bs : list byte) :
  2 ≤ length argv → read_bytes w (input_of argv) = Some bs →
  ((main decode_utf8 feed wide display_error w argv).2 ≠ 0%Z ↔
     warning_fails decode_utf8 feed w bs
     ∨ display_fails decode_utf8 feed display_error argv bs
     ∨ (∃ f, output_of argv = Some f ∧ f ≠ []
             ∧ write_text w f
                 (rendering decode_utf8 feed wide bs (mode_of argv)) = false)
     ∨ (∃ c, print_out w (final_print decode_utf8 feed wide argv bs)
             = Some c)).
Proof.
  intros Hlen Hr. rewrite (main_runs _ Hlen), (clean_log_cases _ _ _ _ Hr).
  unfold final_print.
  destruct (warn w (playback decode_utf8 feed bs).2) as [ws [c|]] eqn:Hw.
  { simpl. split; [intros _; left; exact (warn_fails _ _ _ Hw) | discriminate]. }
  destruct (warn_passes _ _ Hw) as [Hnw _].
  destruct (negb (mode_of argv)
            && bool_decide
                 (is_Some (display_error (playback decode_utf8 feed bs).1)))
    eqn:Hd.
  { apply display_fails_guard in Hd.
    simpl. split; [intros _; right; left; exact Hd | discriminate]. }
  assert (Hnd : ¬ display_fails decode_utf8 feed display_error argv bs).
  { rewrite <- display_fails_guard, Hd. discriminate. }
  destruct (output_of argv) as [[|c f]|].
  - destruct (print_out w (rendering decode_utf8 feed wide bs (mode_of argv)))
      as [k|]; simpl.
    + split; [intros _; right; right; right; eauto | discriminate].
    + split; [congruence|].
      intros [H | [H | [(g & Hg & Hne & _) | (k & Hk)]]];
        [contradiction | contradiction
         | injection Hg as <-; congruence | discriminate Hk].
  - destruct (write_text w (c :: f)
                (rendering decode_utf8 feed wide bs (mode_of argv))) eqn:Ew.
    + destruct (print_out w (py "Written to: " ++ c :: f)) as [k|]; simpl.
      * split; [intros _; right; right; right; eauto | discriminate].
      * split; [congruence|].
        intros [H | [H | [(g & Hg & _ & Hf) | (k & Hk)]]];
          [contradiction | contradiction
           | injection Hg as <-; congruence | discriminate Hk].
    + simpl. split; [|discriminate]. intros _. right. right. left.
      exists (c :: f). split; [reflexivity|]. split; [discriminate | exact Ew].
  - destruct (print_out w (rendering decode_utf8 feed wide bs (mode_of argv)))
      as [k|]; simpl.
    + split; [intros _; right; right; right; eauto | discriminate].
    + split; [congruence|].
      intros [H | [H | [(g & Hg & _) | (k & Hk)]]];
        [contradiction | contradiction | discriminate Hg | discriminate Hk].
Qed.

(** C6, as the code has it: an output path that ends in [.html] selects the
    HTML mode without the flag; without an output path the result is printed
    on standard output and no file is written.  The exit status is not zero
    when the input argument is missing, and also whenever an exception
    leaves [main] or a text cannot be printed: the input file cannot be
    read, the warning of a failed emulator cannot be printed, the emulator
    raises when the plain text is asked for its display, the output file
    cannot be written, or the last [print] fails; it is zero in every other
    case. *)
Theorem main_contract (argv : list pystr) :
  (length argv < 2 → (main decode_utf8 feed wide display_error w argv).2 ≠ 0%Z)
  ∧ (2 ≤ length argv → read_bytes w (input_of argv) = None →
     (main decode_utf8 feed wide display_error w argv).2 = 1%Z)
  ∧ (∀ bs,
       2 ≤ length argv → read_bytes w (input_of argv) = Some bs →
       ((main decode_utf8 feed wide display_error w argv).2 ≠ 0%Z ↔
          warning_fails decode_utf8 feed w bs
          ∨ display_fails decode_utf8 feed display_error argv bs
          ∨ (∃ f, output_of argv = Some f ∧ f ≠ []
                  ∧ write_text w f
                      (rendering decode_utf8 feed wide bs (mode_of argv))
                    = false)
          ∨ (∃ c, print_out w (final_print decode_utf8 feed wide argv bs)
                  = Some c)))
  ∧ (∀ f bs,
       2 ≤ length argv → output_of argv = Some f →
       endswith (py ".html") f = true →
       read_bytes w (input_of argv) = Some bs →
       ¬ warning_fails decode_utf8 feed w bs →
       write_text w f
         (html_document (screen_to_html (playback decode_utf8 feed bs).1))
       = true →
       mode_of argv = true
       ∧ written (main decode_utf8 feed wide display_error w argv).1
         = [(f, html_document
                  (screen_to_html (playback decode_utf8 feed bs).1))])
  ∧ (∀ bs,
       2 ≤ length argv → output_of argv = None →
       read_bytes w (input_of argv) = Some bs →
       ¬ warning_fails decode_utf8 feed w bs →
       ¬ display_fails decode_utf8 feed display_error argv bs →
       written (main decode_utf8 feed wide display_error w argv).1 = []
       ∧ (print_out w
            (rendering decode_utf8 feed wide bs (html_flag_of argv)) = None →
          stdout (main decode_utf8 feed wide display_error w argv).1
          = [rendering decode_utf8 feed wide bs (html_flag_of argv)]
          ∧ (main decode_utf8 feed wide display_error w argv).2 = 0%Z)).
Proof.
  split; [apply main_usage|].
  split.
  { intros Hlen Hr.
    rewrite (main_runs _ Hlen), (clean_log_unreadable _ _ _ Hr). reflexivity. }
  split; [intros bs; apply main_status_after_read|].
  split.
  - intros f bs Hlen Ho He Hr Hnw Hw.
    assert (Hmode : mode_of argv = true).
    { unfold mode_of, auto_html. rewrite Ho, He.
      rewrite (endswith_nonempty (py ".html") f);
        [reflexivity | discriminate | assumption]. }
    split; [exact Hmode|].
    rewrite (main_runs _ Hlen), (clean_log_cases _ _ _ _ Hr).
    destruct (warn_not_failing _ Hnw) as [ws Hws]. rewrite Hws.
    rewrite Ho, Hmode. cbn [negb andb].
    pose proof (endswith_nonempty (py ".html") f) as Hn.
    destruct f as [|c f]; [discriminate Hn; [discriminate | assumption]|].
    unfold rendering at 1. rewrite Hw.
    destruct (print_out w (py "Written to: " ++ c :: f)); reflexivity.
  - intros bs Hlen Ho Hr Hnw Hnd.
    assert (Hmode : mode_of argv = html_flag_of argv).
    { unfold mode_of. rewrite Ho. reflexivity. }
    rewrite (main_runs _ Hlen), (clean_log_cases _ _ _ _ Hr).
    destruct (warn_not_failing _ Hnw) as [ws Hws]. rewrite Hws.
    destruct (negb (mode_of argv)
              && bool_decide
                   (is_Some (display_error (playback decode_utf8 feed bs).1)))
      eqn:Hd.
    { destruct Hnd. apply display_fails_guard. exact Hd. }
    rewrite Ho, Hmode.
    destruct (print_out w
                (rendering decode_utf8 feed wide bs (html_flag_of argv)))
      as [k|]; simpl.
    + split; [reflexivity | discriminate].
    + split; [reflexivity | auto].
Qed.

End CommandLine.

Lemma main_contract_witness :
  written (main no_decode idle_feed all_narrow display_ok hello_world
             [py "claude-log-clean.py"; py "s.log"; py "s.html"]).1
  = [(py "s.html",
      html_document (screen_to_html
        (playback no_decode idle_feed
           [x53; x0a; x48; x65; x6c; x6c; x6f]).1))].
Proof.
  apply (proj1 (proj2 (proj2 (proj2
           (main_contract no_decode idle_feed all_narrow display_ok hello_world
              [py "claude-log-clean.py"; py "s.log"; py "s.html"]))))
           (py "s.html") [x53; x0a; x48; x65; x6c; x6c; x6f]).
  - simpl. lia.
  - reflexivity.
  - reflexivity.
  - reflexivity.
  - intros (e & c & He & _). discriminate He.
  - reflexivity.
Defined.

(** C6 as stated fails: with an input argument that names a file that cannot
    be opened, the exception leaves [main] and the exit status is 1. *)
Lemma unreadable_input_exits_nonzero : ¬ nonzero_exit_only_without_input.
Proof.
  intros H.
  specialize (H no_decode idle_feed all_narrow display_ok empty_world
                [py "claude-log-clean.py"; py "missing.log"]).
  assert (Hs : (main no_decode idle_feed all_narrow display_ok empty_world
                  [py "claude-log-clean.py"; py "missing.log"]).2 ≠ 0%Z)
    by (vm_compute; discriminate).
  specialize (H Hs). simpl in H. lia.
Qed.

(** Whatever the bytes of the log, the screen that is created and handed to
    the emulator is the same one, with 200 columns and 10000 lines and an
    empty buffer; the header line is skipped before the text is fed. *)
Lemma playback_grid (decode_utf8 : list byte → pystr)
    (feed : Screen → pystr → Screen * option pystr) (bs : list byte) :
  playback decode_utf8 feed bs
  = feed new_screen (decode_utf8 (skip_header bs))
  ∧ columns new_screen = 200
  ∧ lines new_screen = 10000
  ∧ buffer new_screen = [].
Proof. repeat split. Qed.

(** ** String tests of the server *)

Lemma startswith_spec (p s : pystr) :
  startswith p s = true ↔ ∃ b, s = p ++ b.
Proof.
  revert s. induction p as [|a p IH]; intros s; simpl.
  - split; [intros _; exists s; reflexivity | reflexivity].
  - destruct s as [|c s].
    + split; [discriminate | intros [b Hb]; discriminate Hb].
    + rewrite andb_true_iff, N.eqb_eq, IH. split.
      * intros [-> [b ->]]. exists b. reflexivity.
      * intros [b Hb]. injection Hb as -> ->. split; [reflexivity | eauto].
Qed.

Lemma contains_spec (sub s : pystr) :
  contains sub s = true ↔ ∃ a b, s = a ++ sub ++ b.
Proof.
  induction s as [|c s IH].
  - simpl. rewrite orb_false_r, startswith_spec. split.
    + intros [b Hb]. exists [], b. exact Hb.
    + intros (a & b & H). destruct a as [|x a]; [|discriminate H].
      exists b. exact H.
  - change (contains sub (c :: s))
      with (startswith sub (c :: s) || contains sub s).
    rewrite orb_true_iff, startswith_spec, IH. split.
    + intros [[b Hb] | (a & b & H)].
      * exists [], b. exact Hb.
      * exists (c :: a), b. rewrite H. reflexivity.
    + intros (a & b & H). destruct a as [|x a].
      * left. exists b. exact H.
      * right. injection H as -> ->. eauto.
Qed.

Lemma endswith_spec (p s : pystr) :
  endswith p s = true ↔ ∃ a, s = a ++ p.
Proof.
  unfold endswith. rewrite startswith_spec. split.
  - intros [b Hb]. exists (rev b).
    apply (f_equal (@rev N)) in Hb.
    rewrite rev_involutive, rev_app_distr, rev_involutive in Hb. exact Hb.
  - intros [a ->]. exists (rev a). apply rev_app_distr.
Qed.

Lemma unsafe_name_guard (filename : pystr) :
  unsafe_name filename ↔
  contains (py "/") filename || contains (py "..") filename
  || negb (endswith (py ".log") filename) = true.
Proof.
  unfold unsafe_name.
  rewrite !orb_true_iff, negb_true_iff, !contains_spec.
  rewrite <- not_true_iff_false, endswith_spec. tauto.
Qed.

(** ** The cache key *)

Lemma py_inj (a b : string) : py a = py b → a = b.
Proof.
  unfold py. intros H.
  assert (Hl : list_ascii_of_string a = list_ascii_of_string b).
  { revert H. generalize (list_ascii_of_string a) (list_ascii_of_string b).
    intros l1. induction l1 as [|x l1 IH]; intros [|y l2] H;
      try discriminate H; [reflexivity|].
    simpl in H. injection H as Hx Hl. f_equal; [|apply IH; assumption].
    rewrite <- (ascii_N_embedding x), <- (ascii_N_embedding y), Hx.
    reflexivity. }
  rewrite <- (string_of_list_ascii_of_string a),
          <- (string_of_list_ascii_of_string b), Hl.
  reflexivity.
Qed.

Lemma pretty_N_char_not_colon (x : N) : N_of_ascii (pretty_N_char x) ≠ 58%N.
Proof. unfold pretty_N_char. repeat case_match; vm_compute; discriminate. Qed.

Lemma pretty_N_go_no_colon (x : N) (s : string) :
  Forall (λ c, c ≠ 58%N) (py s) →
  Forall (λ c, c ≠ 58%N) (py (pretty_N_go x s)).
Proof.
  revert s. induction (N.lt_wf_0 x) as [x _ IH]; intros s Hs.
  destruct (decide (x = 0%N)) as [->|Hx].
  - rewrite pretty_N_go_0. exact Hs.
  - rewrite pretty_N_go_step by lia. apply IH.
    + apply N.div_lt; lia.
    + constructor; [apply pretty_N_char_not_colon | exact Hs].
Qed.

Lemma pretty_N_no_colon (x : N) : Forall (λ c, c ≠ 58%N) (py (pretty x)).
Proof.
  unfold pretty, pretty_N. case_decide.
  - repeat constructor; discriminate.
  - apply pretty_N_go_no_colon. constructor.
Qed.

Lemma pretty_Z_no_colon (m : Z) : Forall (λ c, c ≠ 58%N) (py (pretty m)).
Proof.
  destruct m as [|p|p]; unfold pretty, pretty_Z.
  - repeat constructor; discriminate.
  - apply pretty_N_no_colon.
  - constructor; [discriminate | apply pretty_N_no_colon].
Qed.

Lemma split_at_last_colon (a1 a2 b1 b2 : pystr) :
  Forall (λ c, c ≠ 58%N) b1 → Forall (λ c, c ≠ 58%N) b2 →
  a1 ++ 58%N :: b1 = a2 ++ 58%N :: b2 → a1 = a2 ∧ b1 = b2.
Proof.
  intros H1 H2. revert a2.
  induction a1 as [|x a1 IH]; intros [|y a2] H; simpl in H.
  - injection H as ->. auto.
  - injection H as <- ->. apply Forall_app in H1 as [_ H1].
    inversion H1 as [|? ? Hc _]. congruence.
  - injection H as -> <-. apply Forall_app in H2 as [_ H2].
    inversion H2 as [|? ? Hc _]. congruence.
  - injection H as -> H. destruct (IH _ H) as [-> ->]. auto.
Qed.

Lemma cache_key_inj (mtime_str : Z → pystr) (f1 f2 : pystr) (m1 m2 : Z) :
  (∀ a b, mtime_str a = mtime_str b → a = b) →
  (∀ a, Forall (λ c, c ≠ 58%N) (mtime_str a)) →
  cache_key mtime_str f1 m1 = cache_key mtime_str f2 m2 → f1 = f2 ∧ m1 = m2.
Proof.
  unfold cache_key. intros Hinj Hcolon H.
  destruct (split_at_last_colon f1 f2 (mtime_str m1) (mtime_str m2))
    as [Hf Hm]; [apply Hcolon | apply Hcolon | exact H |].
  split; [exact Hf | apply Hinj; exact Hm].
Qed.

Lemma float_str_inj (a b : Z) : float_str a = float_str b → a = b.
Proof.
  unfold float_str. intros H. apply app_inv_tail in H.
  apply py_inj in H. apply (inj pretty) in H. exact H.
Qed.

Lemma float_str_no_colon (a : Z) : Forall (λ c, c ≠ 58%N) (float_str a).
Proof.
  unfold float_str. apply Forall_app. split; [apply pretty_Z_no_colon|].
  repeat constructor; discriminate.
Qed.

(** ** The requests of the server *)

Ltac run_request :=
  cbv beta iota zeta delta
    [serve_log view_log convert_log_to_html convert_cached newer_html
     path_exists stat_mtime read_text subprocess_run get_cache cache_store
     access abort abort_if bind ret raise negb html_cache accesses].

(** [convert_log_to_html] returns, and it goes one of the ways of
    [convert_case]. *)
Lemma convert_log_to_html_case (home : pystr) (mtime_str : Z → pystr)
    (run_clean : gmap (list N) File → pystr → RunResult)
    (fs : gmap (list N) File) (logfile : pystr) (st : ServerState) :
  ∃ res cache' evs,
    convert_log_to_html home mtime_str run_clean fs logfile st
    = (Ok res, mkState cache' (accesses st ++ evs))
    ∧ convert_case home mtime_str run_clean fs logfile (html_cache st) res cache' evs.
Proof.
  destruct st as [cache acc]. run_request.
  destruct (fs !! log_path_of home logfile) as [l|] eqn:El.
  2:{ rewrite bool_decide_eq_false_2 by (intros [? ?]; discriminate).
      run_request. do 3 eexists. split; [reflexivity|].
      apply case_no_log. exact El. }
  rewrite bool_decide_eq_true_2 by eauto. run_request.
  assert (Hrest : ∀ pre,
    stale_html fs (log_path_of home logfile) (html_path_of home logfile) l pre →
    ∃ res cache' evs,
      match cache !! cache_key mtime_str logfile (mtime l) with
      | Some html => λ st0 : ServerState, (Ok (Some html), st0)
      | None =>
          λ st0 : ServerState,
            match run_clean fs (log_path_of home logfile) with
            | Raised e => λ st1 : ServerState, (Ok (Some (error_page e)), st1)
            | Completed returncode out =>
                if (returncode =? 0)%Z
                then
                  λ st1 : ServerState,
                    (Ok (Some out),
                     {| html_cache :=
                          <[cache_key mtime_str logfile (mtime l):=out]>
                            (let (html_cache, _) := st1 in html_cache);
                        accesses := let (_, accesses) := st1 in accesses |})
                else λ st1 : ServerState, (Ok None, st1)
            end
              {| html_cache := let (html_cache, _) := st0 in html_cache;
                 accesses :=
                   (let (_, accesses) := st0 in accesses)
                   ++ [Subprocess (log_path_of home logfile)] |}
      end
        {| html_cache := cache;
           accesses := (acc ++ pre) ++ [Stat (log_path_of home logfile)] |}
      = (Ok res, mkState cache' (acc ++ evs))
      ∧ convert_case home mtime_str run_clean fs logfile cache res cache' evs).
  { intros pre Hpre.
    destruct (cache !! cache_key mtime_str logfile (mtime l)) as [html|] eqn:Ec.
    - exists (Some html), cache, (pre ++ [Stat (log_path_of home logfile)]).
      split; [rewrite app_assoc; reflexivity|].
      eapply case_cache_hit; eassumption.
    - destruct (run_clean fs (log_path_of home logfile)) as [e|rc out] eqn:Er.
      + exists (Some (error_page e)), cache,
          (pre ++ [Stat (log_path_of home logfile);
                   Subprocess (log_path_of home logfile)]).
        split.
        * run_request. f_equal. f_equal.
          rewrite <- !app_assoc. reflexivity.
        * eapply case_run_raised; eassumption.
      + destruct (rc =? 0)%Z eqn:Erc.
        * apply Z.eqb_eq in Erc. subst rc.
          exists (Some out), (<[cache_key mtime_str logfile (mtime l) := out]> cache),
            (pre ++ [Stat (log_path_of home logfile);
                     Subprocess (log_path_of home logfile)]).
          split.
          -- run_request. f_equal. f_equal.
             rewrite <- !app_assoc. reflexivity.
          -- eapply case_run_ok; eassumption.
        * apply Z.eqb_neq in Erc.
          exists None, cache,
            (pre ++ [Stat (log_path_of home logfile);
                     Subprocess (log_path_of home logfile)]).
          split.
          -- run_request. f_equal. f_equal.
             rewrite <- !app_assoc. reflexivity.
          -- eapply case_run_failed; eassumption. }
  destruct (fs !! html_path_of home logfile) as [a|] eqn:Ea.
  - rewrite bool_decide_eq_true_2 by eauto. run_request.
    destruct (mtime l <=? mtime a)%Z eqn:Ecmp; run_request.
    + do 3 eexists. split.
      * f_equal. f_equal. rewrite <- !app_assoc. reflexivity.
      * apply Z.leb_le in Ecmp. eapply case_preconverted; eassumption.
    + apply Z.leb_gt in Ecmp.
      destruct (Hrest _ (stale_older fs _ _ l a Ea Ecmp))
        as (res & cache' & evs & Heq & Hcase).
      exists res, cache', evs. split; [|exact Hcase].
      rewrite <- Heq. rewrite <- !app_assoc. reflexivity.
  - rewrite bool_decide_eq_false_2 by (intros [? ?]; discriminate).
    run_request.
    destruct (Hrest _ (stale_missing fs _ _ l Ea))
      as (res & cache' & evs & Heq & Hcase).
    exists res, cache', evs. split; [|exact Hcase].
    rewrite <- Heq. rewrite <- !app_assoc. reflexivity.
Qed.

Lemma view_log_unsafe (home : pystr) (mtime_str : Z → pystr)
    (run_clean : gmap (list N) File → pystr → RunResult)
    (fs : gmap (list N) File) (filename : pystr) (st : ServerState) :
  unsafe_name filename →
  view_log home mtime_str run_clean fs filename st = (Abort 400, st).
Proof.
  intros H. apply unsafe_name_guard in H. run_request.
  destruct (contains (py "/") filename || contains (py "..") filename);
    [reflexivity|].
  simpl in H. destruct (endswith (py ".log") filename);
    [discriminate H | reflexivity].
Qed.

Lemma serve_log_unsafe (home : pystr) (mtime_str : Z → pystr)
    (run_clean : gmap (list N) File → pystr → RunResult)
    (fs : gmap (list N) File) (filename : pystr) (st : ServerState) :
  unsafe_name filename →
  serve_log home mtime_str run_clean fs filename st = (Status 400, st).
Proof.
  intros H. unfold serve_log.
  rewrite (view_log_unsafe home mtime_str run_clean fs filename st H). reflexivity.
Qed.

Lemma view_log_safe (home : pystr) (mtime_str : Z → pystr)
    (run_clean : gmap (list N) File → pystr → RunResult)
    (fs : gmap (list N) File) (filename : pystr) (st : ServerState) :
  ¬ unsafe_name filename →
  view_log home mtime_str run_clean fs filename st
  = match convert_log_to_html home mtime_str run_clean fs filename st with
    | (Ok None, st') => (Abort 404, st')
    | (Ok (Some body), st') => (Ok (Page body (py "text/html")), st')
    | (Abort code, st') => (Abort code, st')
    | (Crash e, st') => (Crash e, st')
    end.
Proof.
  intros H. rewrite unsafe_name_guard in H. apply not_true_is_false in H.
  apply orb_false_iff in H as [H1 H2]. apply negb_false_iff in H2.
  unfold view_log, bind, abort_if, abort, ret. rewrite H1, H2. simpl.
  destruct (convert_log_to_html home mtime_str run_clean fs filename st) as [[[b|]|c|e] st'];
    reflexivity.
Qed.

Lemma serve_log_safe (home : pystr) (mtime_str : Z → pystr)
    (run_clean : gmap (list N) File → pystr → RunResult)
    (fs : gmap (list N) File) (filename : pystr) (st : ServerState) :
  ¬ unsafe_name filename →
  ∃ res cache' evs,
    convert_log_to_html home mtime_str run_clean fs filename st
    = (Ok res, mkState cache' (accesses st ++ evs))
    ∧ convert_case home mtime_str run_clean fs filename (html_cache st) res cache' evs
    ∧ serve_log home mtime_str run_clean fs filename st
      = (match res with
         | None => Status 404
         | Some body => Page body (py "text/html")
         end, mkState cache' (accesses st ++ evs)).
Proof.
  intros H.
  destruct (convert_log_to_html_case home mtime_str run_clean fs filename st)
    as (res & cache' & evs & Heq & Hcase).
  exists res, cache', evs. split; [exact Heq|]. split; [exact Hcase|].
  unfold serve_log. rewrite (view_log_safe _ _ _ _ _ _ H), Heq.
  destruct res; reflexivity.
Qed.

Lemma new_accesses_app (st : ServerState) (cache : gmap (list N) (list N))
    (evs : list Access) :
  new_accesses st (mkState cache (accesses st ++ evs)) = evs.
Proof. unfold new_accesses. simpl. apply drop_app_length. Qed.

Lemma new_accesses_same (st : ServerState) : new_accesses st st = [].
Proof. unfold new_accesses. apply drop_all. Qed.

(** C10: a file name that contains [/], or contains [..], or does not end
    in [.log] is answered with status 400, and the state of the server,
    the accesses made included, is as before: no file has been looked at.
    Any other name goes to the conversion, and a conversion that returns
    [None] is answered with status 404. *)
Theorem view_log_guard (home : pystr) (mtime_str : Z → pystr)
    (run_clean : gmap (list N) File → pystr → RunResult)
    (fs : gmap (list N) File) (filename : pystr) (st : ServerState) :
  (unsafe_name filename →
   view_log home mtime_str run_clean fs filename st = (Abort 400, st)
   ∧ serve_log home mtime_str run_clean fs filename st = (Status 400, st)
   ∧ new_accesses st (serve_log home mtime_str run_clean fs filename st).2 = [])
  ∧ (¬ unsafe_name filename →
     ∃ res st',
       convert_log_to_html home mtime_str run_clean fs filename st = (Ok res, st')
       ∧ serve_log home mtime_str run_clean fs filename st
         = (match res with
            | None => Status 404
            | Some body => Page body (py "text/html")
            end, st')).
Proof.
  split.
  - intros H. pose proof (view_log_unsafe home mtime_str run_clean fs filename st H) as Hv.
    pose proof (serve_log_unsafe home mtime_str run_clean fs filename st H) as Hs.
    split; [exact Hv|]. split; [exact Hs|].
    rewrite Hs. apply new_accesses_same.
  - intros H.
    destruct (serve_log_safe home mtime_str run_clean fs filename st H)
      as (res & cache' & evs & Heq & _ & Hs).
    exists res, (mkState cache' (accesses st ++ evs)). split; assumption.
Qed.

Lemma view_log_guard_witness :
  serve_log user_home float_str run_ok one_log (py "../a.log") initial_state
  = (Status 400, initial_state)
  ∧ serve_log user_home float_str run_ok one_log (py "a.txt") initial_state
    = (Status 400, initial_state).
Proof.
  split.
  - apply (proj1 (view_log_guard user_home float_str run_ok one_log (py "../a.log")
                    initial_state)).
    left. exists (py ".."), (py "a.log"). reflexivity.
  - apply (proj1 (view_log_guard user_home float_str run_ok one_log (py "a.txt")
                    initial_state)).
    right. right. intros [a Ha].
    apply (f_equal (@rev N)) in Ha. rewrite rev_app_distr in Ha.
    vm_compute in Ha. discriminate Ha.
Defined.

(** ** The cache *)

Lemma cache_fresh_empty (home : pystr) (mtime_str : Z → pystr)
    (run_clean : gmap (list N) File → pystr → RunResult) :
  cache_fresh home mtime_str run_clean ∅.
Proof. intros key html H. rewrite lookup_empty in H. discriminate H. Qed.

Lemma cache_fresh_insert (home : pystr) (mtime_str : Z → pystr)
    (run_clean : gmap (list N) File → pystr → RunResult)
    (cache : gmap (list N) (list N)) (logfile : pystr) (m : Z) (html : pystr) :
  cache_fresh home mtime_str run_clean cache →
  derived_from home run_clean logfile m html →
  cache_fresh home mtime_str run_clean (<[cache_key mtime_str logfile m := html]> cache).
Proof.
  intros Hc Hd key h Hk.
  destruct (decide (cache_key mtime_str logfile m = key)) as [<-|Hne].
  - rewrite lookup_insert_eq in Hk. injection Hk as <-. eauto.
  - rewrite lookup_insert_ne in Hk by exact Hne. eauto.
Qed.

Lemma cache_hit_derived (home : pystr) (mtime_str : Z → pystr)
    (run_clean : gmap (list N) File → pystr → RunResult)
    (cache : gmap (list N) (list N)) (logfile : pystr) (m : Z) (html : pystr) :
  (∀ a b, mtime_str a = mtime_str b → a = b) →
  (∀ a, Forall (λ c, c ≠ 58%N) (mtime_str a)) →
  cache_fresh home mtime_str run_clean cache →
  cache !! cache_key mtime_str logfile m = Some html →
  derived_from home run_clean logfile m html.
Proof.
  intros Hinj Hcolon Hc Hk. destruct (Hc _ _ Hk) as (f' & m' & Hkey & Hd).
  apply (cache_key_inj _ _ _ _ _ Hinj Hcolon) in Hkey as [-> ->]. exact Hd.
Qed.

Lemma stale_no_read (fs : gmap (list N) File) (log_path html_path : pystr)
    (l : File) (pre : list Access) (p : pystr) (tail : list Access) :
  stale_html fs log_path html_path l pre →
  (∀ q, ¬ In (ReadText q) tail) →
  ¬ In (ReadText p) (pre ++ tail).
Proof.
  intros Hs Ht Hin. apply in_app_or in Hin as [Hin | Hin].
  - destruct Hs; simpl in Hin; intuition discriminate.
  - exact (Ht _ Hin).
Qed.

(** C7, as the code has it: the version of a log is its [st_mtime] and
    nothing else.  The pre-converted HTML file is read only when its
    [st_mtime] is not smaller than that of the log.  Whatever
    [convert_log_to_html] returns is the text of such a file, or a page
    derived from the log when its [st_mtime] had the present value (from
    the cache, or from a run made now), or the error page; and a cache in
    which every entry is stored under the [st_mtime] it was derived from
    stays so.  The formatting of the float is taken to give different texts
    for different floats and never a colon. *)
Theorem convert_never_stale (home : pystr) (mtime_str : Z → pystr)
    (run_clean : gmap (list N) File → pystr → RunResult)
    (fs : gmap (list N) File) (logfile : pystr) (st : ServerState) :
  (∀ a b, mtime_str a = mtime_str b → a = b) →
  (∀ a, Forall (λ c, c ≠ 58%N) (mtime_str a)) →
  cache_fresh home mtime_str run_clean (html_cache st) →
  ∃ res st',
    convert_log_to_html home mtime_str run_clean fs logfile st = (Ok res, st')
    ∧ cache_fresh home mtime_str run_clean (html_cache st')
    ∧ (∀ p, In (ReadText p) (new_accesses st st') →
         p = html_path_of home logfile
         ∧ ∃ l a, fs !! log_path_of home logfile = Some l
                  ∧ fs !! html_path_of home logfile = Some a
                  ∧ (mtime l ≤ mtime a)%Z ∧ res = Some (text a))
    ∧ (∀ html, res = Some html →
         (∃ l a, fs !! log_path_of home logfile = Some l
                 ∧ fs !! html_path_of home logfile = Some a
                 ∧ (mtime l ≤ mtime a)%Z ∧ html = text a)
         ∨ (∃ l, fs !! log_path_of home logfile = Some l
                 ∧ derived_from home run_clean logfile (mtime l) html)
         ∨ (∃ e, run_clean fs (log_path_of home logfile) = Raised e
                 ∧ html = error_page e)).
Proof.
  intros Hinj Hcolon Hfresh.
  destruct (convert_log_to_html_case home mtime_str run_clean fs logfile st)
    as (res & cache' & evs & Heq & Hcase).
  exists res, (mkState cache' (accesses st ++ evs)).
  split; [exact Heq|]. rewrite new_accesses_app. simpl.
  assert (Htail1 : ∀ q, ¬ In (ReadText q) [Stat (log_path_of home logfile)]).
  { intros q Hin. simpl in Hin. intuition discriminate. }
  assert (Htail2 : ∀ q, ¬ In (ReadText q)
            [Stat (log_path_of home logfile);
             Subprocess (log_path_of home logfile)]).
  { intros q Hin. simpl in Hin. intuition discriminate. }
  destruct Hcase as [Hl | l a Hl Ha Hle | l pre html Hl Hpre Hk
                     | l pre e Hl Hpre Hk Hr | l pre out Hl Hpre Hk Hr
                     | l pre rc out Hl Hpre Hk Hr Hrc].
  - split; [exact Hfresh|]. split.
    + intros p Hin. simpl in Hin. intuition discriminate.
    + intros html Hres. discriminate Hres.
  - split; [exact Hfresh|]. split.
    + intros p Hin. simpl in Hin.
      destruct Hin as [H | [H | [H | [H | [H | []]]]]]; try discriminate H.
      injection H as <-. split; [reflexivity|]. exists l, a. auto.
    + intros html Hres. injection Hres as <-. left. exists l, a. auto.
  - split; [exact Hfresh|]. split.
    + intros p Hin. destruct (stale_no_read _ _ _ _ _ p _ Hpre Htail1 Hin).
    + intros h Hres. injection Hres as <-. right. left. exists l.
      split; [exact Hl|].
      exact (cache_hit_derived _ _ _ _ _ _ _ Hinj Hcolon Hfresh Hk).
  - split; [exact Hfresh|]. split.
    + intros p Hin. destruct (stale_no_read _ _ _ _ _ p _ Hpre Htail2 Hin).
    + intros h Hres. injection Hres as <-. right. right. exists e. auto.
  - assert (Hd : derived_from home run_clean logfile (mtime l) out).
    { exists fs, l. auto. }
    split; [apply cache_fresh_insert; assumption|]. split.
    + intros p Hin. destruct (stale_no_read _ _ _ _ _ p _ Hpre Htail2 Hin).
    + intros h Hres. injection Hres as <-. right. left. exists l. auto.
  - split; [exact Hfresh|]. split.
    + intros p Hin. destruct (stale_no_read _ _ _ _ _ p _ Hpre Htail2 Hin).
    + intros h Hres. discriminate Hres.
Qed.

Lemma convert_never_stale_witness :
  ∃ res st',
    convert_log_to_html user_home float_str run_ok log_and_html (py "a.log")
      initial_state = (Ok res, st')
    ∧ cache_fresh user_home float_str run_ok (html_cache st')
    ∧ res = Some (py "<html>old</html>").
Proof.
  destruct (convert_never_stale user_home float_str run_ok log_and_html (py "a.log")
              initial_state) as (res & st' & Heq & Hfresh & _ & _).
  { exact float_str_inj. }
  { exact float_str_no_colon. }
  { apply cache_fresh_empty. }
  exists res, st'. split; [exact Heq|]. split; [exact Hfresh|].
  assert (Hc : convert_log_to_html user_home float_str run_ok log_and_html (py "a.log")
                 initial_state
               = (Ok (Some (py "<html>old</html>")),
                  (convert_log_to_html user_home float_str run_ok log_and_html
                     (py "a.log") initial_state).2))
    by (vm_compute; reflexivity).
  rewrite Heq in Hc. injection Hc as Hres. exact Hres.
Defined.

(** C7 as it is stated does not hold: the text of [a.log] is rewritten while
    its [st_mtime] stays 7 (two writes within the resolution of the float,
    or a restored timestamp); the second request finds the key of the first
    one and returns the page of the old text from the cache. *)
Lemma same_mtime_serves_old_page : ¬ never_serves_older_version.
Proof.
  intros H.
  specialize (H user_home float_str run_echo log_before log_after
                (py "a.log") (py "old") float_str_inj).
  cbv zeta in H.
  destruct H as (l & fs0 & f & Hl & Hf & Ht & Hr).
  - vm_compute. reflexivity.
  - vm_compute. reflexivity.
  - vm_compute. reflexivity.
  - unfold run_echo in Hr. rewrite Hf in Hr. injection Hr as Hr.
    assert (El : l = mkFile 7 (py "new")).
    { unfold log_after in Hl. rewrite lookup_singleton_eq in Hl.
      injection Hl as <-. reflexivity. }
    rewrite El, Hr in Ht. discriminate Ht.
Qed.

(** ** Failed conversions *)

Lemma stale_no_subprocess (fs : gmap (list N) File)
    (log_path html_path : pystr) (l : File) (pre : list Access) (q : pystr) :
  stale_html fs log_path html_path l pre → ¬ In (Subprocess q) pre.
Proof. intros Hs Hin. destruct Hs; simpl in Hin; intuition discriminate. Qed.

Lemma error_page_contains (e : pystr) : ∃ a b, error_page e = a ++ e ++ b.
Proof.
  exists (py "<html><body><pre>Error converting log: "),
         (py "</pre></body></html>").
  reflexivity.
Qed.

(** C8, as the code has it: when the run of the clean script raises (a
    time-out, an interpreter that cannot be started), the client receives a
    page with status 200 that contains the text of the exception; when the
    run completes with a return code other than zero, the conversion returns
    [None] and the client receives status 404, without any error text. *)
Theorem conversion_failure_response (home : pystr) (mtime_str : Z → pystr)
    (run_clean : gmap (list N) File → pystr → RunResult)
    (fs : gmap (list N) File) (filename : pystr) (st : ServerState) :
  invokes_render home mtime_str run_clean fs filename st →
  match run_clean fs (log_path_of home filename) with
  | Raised e =>
      (serve_log home mtime_str run_clean fs filename st).1
      = Page (error_page e) (py "text/html")
      ∧ ∃ a b, error_page e = a ++ e ++ b
  | Completed returncode out =>
      if (returncode =? 0)%Z
      then (serve_log home mtime_str run_clean fs filename st).1
           = Page out (py "text/html")
      else (serve_log home mtime_str run_clean fs filename st).1 = Status 404
  end.
Proof.
  unfold invokes_render. intros Hin.
  destruct (contains (py "/") filename || contains (py "..") filename
            || negb (endswith (py ".log") filename)) eqn:Hg.
  { apply unsafe_name_guard in Hg.
    rewrite (serve_log_unsafe home mtime_str run_clean fs filename st Hg) in Hin.
    simpl in Hin. rewrite new_accesses_same in Hin. destruct Hin. }
  assert (Hsafe : ¬ unsafe_name filename).
  { rewrite unsafe_name_guard, Hg. discriminate. }
  destruct (serve_log_safe home mtime_str run_clean fs filename st Hsafe)
    as (res & cache' & evs & _ & Hcase & Hs).
  rewrite Hs in Hin. rewrite Hs. simpl in Hin. rewrite new_accesses_app in Hin.
  simpl.
  destruct Hcase as [Hl | l a Hl Ha Hle | l pre html Hl Hpre Hk
                     | l pre e Hl Hpre Hk Hr | l pre out Hl Hpre Hk Hr
                     | l pre rc out Hl Hpre Hk Hr Hrc].
  - simpl in Hin. intuition discriminate.
  - simpl in Hin. intuition discriminate.
  - apply in_app_or in Hin as [Hin | Hin].
    + destruct (stale_no_subprocess _ _ _ _ _ _ Hpre Hin).
    + simpl in Hin. intuition discriminate.
  - rewrite Hr. split; [reflexivity | apply error_page_contains].
  - rewrite Hr. reflexivity.
  - rewrite Hr. apply Z.eqb_neq in Hrc. rewrite Hrc. reflexivity.
Qed.

Lemma conversion_failure_response_witness :
  (serve_log user_home float_str run_timeout one_log (py "a.log") initial_state).1
  = Page (error_page (py "timed out")) (py "text/html")
  ∧ (serve_log user_home float_str run_exit_1 one_log (py "a.log") initial_state).1
    = Status 404.
Proof.
  split.
  - apply (conversion_failure_response user_home float_str run_timeout one_log
             (py "a.log") initial_state).
    unfold invokes_render. vm_compute. auto 10.
  - apply (conversion_failure_response user_home float_str run_exit_1 one_log
             (py "a.log") initial_state).
    unfold invokes_render. vm_compute. auto 10.
Defined.

(** C8 as stated fails: when the clean script exits with status 1, the run
    has failed, and the client receives status 404 and no page. *)
Lemma failed_run_gives_404 : ¬ failures_give_error_page.
Proof.
  intros H.
  destruct (H user_home float_str run_exit_1 one_log (py "a.log") initial_state)
    as [body Hbody].
  - unfold invokes_render. vm_compute. auto 10.
  - simpl. discriminate.
  - vm_compute in Hbody. discriminate Hbody.
Qed.

(** * Further properties of the cleaner *)

(** ** The header line *)

Lemma bytes_index_split (b : byte) (bs : list byte) :
  match bytes_index b bs with
  | Some i =>
      ∃ pre, ¬ In b pre ∧ length pre = i ∧ bs = pre ++ b :: drop (i + 1) bs
  | None => ¬ In b bs
  end.
Proof.
  induction bs as [|c bs IH]; simpl; [tauto|].
  destruct (Byte.eqb c b) eqn:E.
  - apply Byte.byte_dec_bl in E. subst c.
    exists []. simpl. rewrite drop_0. tauto.
  - assert (Hne : c ≠ b) by (apply Byte.eqb_false; exact E).
    destruct (bytes_index b bs) as [i|].
    + destruct IH as (pre & Hpre & Hlen & Hbs).
      exists (c :: pre). simpl. split; [tauto|]. split; [lia|].
      f_equal. exact Hbs.
    + tauto.
Qed.

(** X1: [skip_header] leaves the bytes as they are when there is no newline
    among them; otherwise it removes the bytes up to the first newline,
    this newline included, and nothing else. *)
Theorem skip_header_first_newline (bs : list byte) :
  (¬ In x0a bs ∧ skip_header bs = bs)
  ∨ (∃ pre, ¬ In x0a pre ∧ bs = pre ++ x0a :: skip_header bs).
Proof.
  unfold skip_header. pose proof (bytes_index_split x0a bs) as H.
  destruct (bytes_index x0a bs) as [i|].
  - right. destruct H as (pre & Hpre & _ & Hbs). exists pre. auto.
  - left. auto.
Qed.

(** ** The arguments *)

Lemma scan_args_fold (args : list pystr) (o : option pystr) (h : bool) :
  fold_left
    (λ '(output_file, html) arg,
       if str_eqb arg (py "--html") then (output_file, true)
       else (Some arg, html))
    args (o, h)
  = (match last (List.filter (λ a, negb (is_html_flag a)) args) with
     | Some a => Some a
     | None => o
     end,
     h || existsb is_html_flag args).
Proof.
  revert o h. induction args as [|a args IH]; intros o h; simpl.
  - rewrite orb_false_r. reflexivity.
  - assert (Ef : is_html_flag a = str_eqb a (py "--html")) by reflexivity.
    rewrite Ef.
    destruct (str_eqb a (py "--html")) eqn:E; simpl; rewrite IH.
    + rewrite orb_true_r. reflexivity.
    + rewrite last_cons.
      destruct (last (List.filter (λ a0, negb (is_html_flag a0)) args));
        reflexivity.
Qed.

(** X2: the loop over the arguments keeps as output file the last argument
    that is not [--html], if there is one, and sets the HTML flag exactly
    when [--html] is among the arguments; [--html] is never taken as the
    output file. *)
Theorem scan_args_last_wins (args : list pystr) :
  scan_args args
  = (last (List.filter (λ a, negb (is_html_flag a)) args),
     existsb is_html_flag args)
  ∧ (scan_args args).1 ≠ Some (py "--html").
Proof.
  assert (H : scan_args args
              = (last (List.filter (λ a, negb (is_html_flag a)) args),
                 existsb is_html_flag args)).
  { unfold scan_args. rewrite scan_args_fold.
    destruct (last (List.filter (λ a, negb (is_html_flag a)) args));
      reflexivity. }
  split; [exact H|]. rewrite H. simpl. intros Hl.
  apply last_Some_elem_of in Hl. apply list_elem_of_In in Hl.
  apply List.filter_In in Hl as [_ Hl]. vm_compute in Hl. discriminate Hl.
Qed.

(** ** The emulator *)




(** ** The lines of the output *)

(** X4: the loop that removes trailing empty lines never removes a line, in
    either backend: the lines collected before it are not blank. *)
Theorem trailing_loop_never_pops (wide : N → bool) (screen : Screen) :
  remove_trailing_empty (html_lines screen) = html_lines screen
  ∧ remove_trailing_empty (text_lines wide screen) = text_lines wide screen
  ∧ screen_to_html screen = join nl (html_lines screen)
  ∧ render_text wide screen = join nl (text_lines wide screen).
Proof.
  pose proof (pop_blank_id _ (html_lines_nonblank screen)) as Hh.
  pose proof (pop_blank_id _ (text_lines_nonblank wide screen)) as Ht.
  unfold screen_to_html, render_text. rewrite Hh, Ht. auto.
Qed.

Lemma rstrip_app_keep (a b : pystr) :
  b ≠ [] → rstrip b = b → rstrip (a ++ b) = a ++ b.
Proof.
  intros Hb Hr. induction a as [|c a IH]; simpl; [exact Hr|].
  rewrite IH. destruct (a ++ b) eqn:E; [|reflexivity].
  apply app_eq_nil in E as [_ E]. contradiction.
Qed.

Lemma rstrip_app_spaces (a b : pystr) :
  forallb is_space b = true → rstrip (a ++ b) = rstrip a.
Proof.
  intros Hb. induction a as [|c a IH]; simpl.
  - apply rstrip_nil_iff. exact Hb.
  - rewrite IH. reflexivity.
Qed.

Lemma filter_rstrip_trimmed (rows : list pystr) :
  Forall (λ l, l ≠ [] ∧ rstrip l = l) (List.filter nonempty (map rstrip rows)).
Proof.
  induction rows as [|r rows IH]; simpl; [constructor|].
  destruct (nonempty (rstrip r)) eqn:E; [|exact IH].
  constructor; [|exact IH]. split; [|apply rstrip_idem].
  intros H. rewrite H in E. discriminate E.
Qed.

Lemma html_lines_trimmed (screen : Screen) :
  Forall (λ l, l ≠ [] ∧ rstrip l = l) (html_lines screen).
Proof.
  rewrite html_lines_filter. unfold line_str.
  rewrite <- (map_map (λ y, join [] (line_html (columns screen) (line_at screen y)))
                      rstrip).
  apply filter_rstrip_trimmed.
Qed.

Lemma text_lines_trimmed (wide : N → bool) (screen : Screen) :
  Forall (λ l, l ≠ [] ∧ rstrip l = l) (text_lines wide screen).
Proof. rewrite text_lines_filter. apply filter_rstrip_trimmed. Qed.

Lemma join_trimmed (ls : list pystr) :
  Forall (λ l, l ≠ [] ∧ rstrip l = l) ls →
  rstrip (join nl ls) = join nl ls ∧ (ls ≠ [] → join nl ls ≠ []).
Proof.
  induction 1 as [|l ls [Hne Hr] Hls [IH1 IH2]]; [split; [reflexivity | congruence]|].
  destruct ls as [|l2 rest].
  - simpl. split; [exact Hr | intros _; exact Hne].
  - change (join nl (l :: l2 :: rest)) with (l ++ nl ++ join nl (l2 :: rest)).
    assert (Hj : join nl (l2 :: rest) ≠ []) by (apply IH2; discriminate).
    split.
    + rewrite !app_assoc. rewrite rstrip_app_keep by assumption. reflexivity.
    + intros _ E. apply app_eq_nil in E as [E _]. contradiction.
Qed.

(** X5: neither output has trailing white space: every line of either
    backend is non-empty and ends with a character that is not white space,
    and so does the whole output when it is not empty. *)
Theorem output_is_right_trimmed (wide : N → bool) (screen : Screen) :
  Forall (λ l, l ≠ [] ∧ rstrip l = l) (html_lines screen)
  ∧ Forall (λ l, l ≠ [] ∧ rstrip l = l) (text_lines wide screen)
  ∧ rstrip (screen_to_html screen) = screen_to_html screen
  ∧ rstrip (render_text wide screen) = render_text wide screen.
Proof.
  pose proof (html_lines_trimmed screen) as Hh.
  pose proof (text_lines_trimmed wide screen) as Ht.
  split; [exact Hh|]. split; [exact Ht|].
  unfold screen_to_html, render_text.
  rewrite (pop_blank_id _ (html_lines_nonblank screen)).
  rewrite (pop_blank_id _ (text_lines_nonblank wide screen)).
  split; [apply (join_trimmed _ Hh) | apply (join_trimmed _ Ht)].
Qed.

Lemma filter_all_empty {A : Type} (f : A → pystr) (xs : list A) :
  (∀ x, In x xs → f x = []) → List.filter nonempty (map f xs) = [].
Proof.
  induction xs as [|x xs IH]; intros H; simpl; [reflexivity|].
  rewrite (H x) by (left; reflexivity). simpl.
  apply IH. intros y Hy. apply H. right. exact Hy.
Qed.

(** X6: a screen whose rows are all blank gives the empty string in both
    modes; so does the screen as it is created, before any text is fed. *)
Theorem blank_screen_is_empty (wide : N → bool) (screen : Screen) :
  (∀ y, y < lines screen → blank_row (line_at screen y) = true) →
  screen_to_html screen = [] ∧ render_text wide screen = [].
Proof.
  intros Hb.
  assert (Hh : html_lines screen = []).
  { rewrite html_lines_filter. apply filter_all_empty.
    intros y Hy. apply in_seq in Hy. apply line_str_blank_row, Hb. lia. }
  assert (Ht : text_lines wide screen = []).
  { rewrite text_lines_filter. unfold display. rewrite map_map.
    apply filter_all_empty.
    intros y Hy. apply in_seq in Hy.
    apply (row_text_blank_row wide (columns screen)), Hb. lia. }
  unfold screen_to_html, render_text. rewrite Hh, Ht. split; reflexivity.
Qed.

Lemma blank_screen_is_empty_witness :
  screen_to_html new_screen = [] ∧ render_text all_narrow new_screen = [].
Proof.
  apply (blank_screen_is_empty all_narrow new_screen).
  intros y _. reflexivity.
Defined.

(** ** Plain screens *)

Section PlainScreens.

Variable wide : N → bool.

(** A space is not a double-width glyph. *)
Hypothesis space_narrow : wide 32%N = false.

Lemma plain_cell_fields (ch : Char) :
  plain_cell wide ch = true →
  is_default (fg ch) = true ∧ is_default (bg ch) = true ∧ bold ch = false
  ∧ data ch ≠ py "<" ∧ data ch ≠ py ">" ∧ data ch ≠ py "&"
  ∧ starts_wide wide (data ch) = false
  ∧ length (data ch) = 1.
Proof.
  unfold plain_cell.
  rewrite !andb_true_iff, !negb_true_iff, !str_eqb_neq, Nat.eqb_eq.
  tauto.
Qed.

Lemma plain_char_to_html (ch : Char) :
  plain_cell wide ch = true → char_to_html ch = data ch.
Proof.
  intros H. apply plain_cell_fields in H as (Hf & Hg & Hb & H1 & H2 & H3 & _).
  destruct (blank_default ch) eqn:E.
  - rewrite (char_to_html_blank _ E). symmetry. apply blank_default_data, E.
  - rewrite char_to_html_unstyled; [apply escape_data_other; assumption | exact E |].
    unfold styled, adds_style. rewrite Hf, Hg, Hb, !andb_false_r. reflexivity.
Qed.

Lemma plain_empty_cell_space (ch : Char) :
  non_empty_cell ch = false → data ch = py " ".
Proof.
  intros H. unfold non_empty_cell in H.
  apply orb_false_iff in H as [H _]. apply negb_false_iff in H.
  apply str_eqb_eq. exact H.
Qed.

Lemma default_char_plain : plain_cell wide default_char = true.
Proof.
  assert (E : starts_wide wide (data default_char) = false)
    by exact space_narrow.
  unfold plain_cell. rewrite E. reflexivity.
Qed.

Lemma char_at_plain (line : list Char) (x : nat) :
  forallb (plain_cell wide) line = true →
  plain_cell wide (char_at line x) = true.
Proof.
  unfold char_at. intros H.
  destruct (line !! x) as [ch|] eqn:E; simpl; [|apply default_char_plain].
  rewrite forallb_forall in H. apply H.
  apply list_elem_of_In. eapply list_elem_of_lookup_2. exact E.
Qed.

Lemma line_at_plain (screen : Screen) (y : nat) :
  plain_screen wide screen = true →
  forallb (plain_cell wide) (line_at screen y) = true.
Proof.
  unfold plain_screen, line_at. intros H.
  destruct (buffer screen !! y) as [line|] eqn:E; simpl; [|reflexivity].
  rewrite forallb_forall in H. apply H.
  apply list_elem_of_In. eapply list_elem_of_lookup_2. exact E.
Qed.

Lemma join_nil_concat (parts : list pystr) : join [] parts = concat parts.
Proof.
  induction parts as [|p [|q rest] IH]; simpl.
  - reflexivity.
  - rewrite app_nil_r. reflexivity.
  - simpl in IH. rewrite IH. reflexivity.
Qed.

Lemma render_narrow (cells : list Char) :
  Forall (λ ch, starts_wide wide (data ch) = false) cells →
  render wide false cells = map data cells.
Proof.
  induction 1 as [|ch cells Hn _ IH]; [reflexivity|].
  simpl. rewrite Hn, IH. reflexivity.
Qed.

Lemma row_text_narrow (cols : nat) (line : list Char) :
  forallb (plain_cell wide) line = true →
  row_text wide cols line
  = concat (map (λ x, data (char_at line x)) (range cols)).
Proof.
  intros Hp. unfold row_text. rewrite render_narrow, map_map; [reflexivity|].
  apply Forall_forall. intros ch Hin.
  apply list_elem_of_In, in_map_iff in Hin as (x & <- & _).
  apply plain_cell_fields, char_at_plain, Hp.
Qed.

Lemma spaces_concat (line : list Char) (xs : list nat) :
  (∀ x, In x xs → data (char_at line x) = py " ") →
  forallb is_space (concat (map (λ x, data (char_at line x)) xs)) = true.
Proof.
  induction xs as [|x xs IH]; intros H; simpl; [reflexivity|].
  rewrite (H x) by (left; reflexivity). simpl.
  apply IH. intros y Hy. apply H. right. exact Hy.
Qed.

Lemma plain_line_str (cols : nat) (line : list Char) :
  1 ≤ cols → forallb (plain_cell wide) line = true →
  line_str cols line = rstrip (row_text wide cols line).
Proof.
  intros Hc Hp. rewrite (row_text_narrow cols line Hp).
  unfold line_str, line_html, range.
  rewrite join_nil_concat.
  assert (Hk : last_char cols line + 1 ≤ cols
               ∧ ∀ x, last_char cols line < x → x < cols →
                      non_empty_cell (char_at line x) = false).
  { destruct (last_char_cases cols line) as [[Hk Hall] | (Hlt & _ & Hall)].
    - rewrite Hk. split; [lia | intros x _ Hx; apply Hall; exact Hx].
    - split; [lia | exact Hall]. }
  destruct Hk as [Hle Hall].
  assert (Hseq : seq 0 cols
                 = seq 0 (last_char cols line + 1)
                   ++ seq (last_char cols line + 1)
                          (cols - (last_char cols line + 1))).
  { rewrite <- (seq_app (last_char cols line + 1)
                         (cols - (last_char cols line + 1)) 0
                : seq 0 (last_char cols line + 1
                         + (cols - (last_char cols line + 1)))
                  = seq 0 (last_char cols line + 1)
                    ++ seq (last_char cols line + 1)
                           (cols - (last_char cols line + 1))).
    f_equal. lia. }
  rewrite Hseq. rewrite map_app, concat_app.
  rewrite rstrip_app_spaces.
  - f_equal. f_equal. apply map_ext. intros x.
    apply plain_char_to_html, char_at_plain, Hp.
  - apply spaces_concat. intros x Hx. apply in_seq in Hx.
    apply plain_empty_cell_space, Hall; lia.
Qed.

(** X7: on a screen of at least one column whose cells have default
    colours, no bold and a text of one code point that is none of the three
    escaped glyphs and not double-width, the HTML content is the plain text
    output. *)
Theorem plain_screen_html_is_text (screen : Screen) :
  1 ≤ columns screen → plain_screen wide screen = true →
  screen_to_html screen = render_text wide screen.
Proof.
  intros Hc Hp. unfold screen_to_html, render_text. f_equal. f_equal.
  rewrite html_lines_filter, text_lines_filter. unfold display.
  rewrite map_map. f_equal. apply map_ext. intros y.
  apply (plain_line_str (columns screen) (line_at screen y) Hc).
  apply line_at_plain, Hp.
Qed.

End PlainScreens.

Lemma plain_screen_html_is_text_witness :
  screen_to_html plain_rows = render_text all_narrow plain_rows.
Proof.
  apply (plain_screen_html_is_text all_narrow ltac:(reflexivity) plain_rows);
    [simpl; lia | reflexivity].
Defined.

(** ** Hexadecimal colours *)

Lemma hex_digit_spec (d : N) :
  (d < 16)%N →
  hex_digit_value (hex_digit d) = d ∧ is_hex_digit (hex_digit d) = true.
Proof.
  intros H. unfold hex_digit, hex_digit_value, is_hex_digit.
  destruct (N.ltb_spec d 10).
  - destruct (N.ltb_spec (48 + d) 58); [|lia].
    split; [lia|]. apply orb_true_iff. left.
    apply andb_true_iff. split; apply N.leb_le; lia.
  - destruct (N.ltb_spec (87 + d) 58); [lia|].
    split; [lia|]. apply orb_true_iff. right.
    apply andb_true_iff. split; apply N.leb_le; lia.
Qed.

Lemma pow16_succ (k : nat) :
  (16 ^ N.of_nat (S k) = 16 * 16 ^ N.of_nat k)%N.
Proof. rewrite Nat2N.inj_succ. apply N.pow_succ_r'. Qed.

Lemma hex_go_spec (fuel : nat) (n : N) (acc : pystr) :
  1 ≤ fuel → (n < 16 ^ N.of_nat fuel)%N →
  ∃ d, hex_go fuel n acc = d ++ acc
       ∧ 1 ≤ length d
       ∧ forallb is_hex_digit d = true
       ∧ (∀ v, fold_left (λ v c, (16 * v + hex_digit_value c)%N) d v
               = (v * 16 ^ N.of_nat (length d) + n)%N)
       ∧ (∀ m, 1 ≤ m → (n < 16 ^ N.of_nat m)%N → length d ≤ m).
Proof.
  revert n acc. induction fuel as [|fuel IH]; intros n acc Hf Hn; [lia|].
  simpl hex_go.
  assert (Hmod : (n mod 16 < 16)%N) by (apply N.mod_lt; discriminate).
  destruct (hex_digit_spec _ Hmod) as [Hv Hd].
  pose proof (N.div_mod n 16 ltac:(discriminate)) as Hdm.
  destruct (N.eqb_spec (n / 16) 0) as [Hz|Hnz].
  - exists [hex_digit (n mod 16)]. split; [reflexivity|].
    split; [simpl; lia|]. split; [simpl; rewrite Hd; reflexivity|].
    split.
    + intros v. simpl. rewrite Hv. change (N.of_nat 1) with 1%N.
      rewrite N.pow_1_r. lia.
    + intros m Hm _. simpl. lia.
  - assert (Hfuel : 1 ≤ fuel).
    { destruct fuel; [|lia]. change (16 ^ N.of_nat 1)%N with 16%N in Hn.
      destruct Hnz. apply N.div_small. exact Hn. }
    assert (Hdiv : (n / 16 < 16 ^ N.of_nat fuel)%N).
    { apply N.Div0.div_lt_upper_bound. rewrite <- pow16_succ. exact Hn. }
    destruct (IH (n / 16)%N (hex_digit (n mod 16) :: acc) Hfuel Hdiv)
      as (d & Hgo & Hlen & Hdig & Hval & Hmin).
    exists (d ++ [hex_digit (n mod 16)]).
    split; [rewrite Hgo, <- app_assoc; reflexivity|].
    split; [rewrite length_app; simpl; lia|].
    split; [rewrite forallb_app, Hdig; simpl; rewrite Hd; reflexivity|].
    split.
    + intros v. rewrite fold_left_app. simpl. rewrite Hval, Hv.
      rewrite length_app. simpl.
      replace (length d + 1) with (S (length d)) by lia.
      rewrite pow16_succ. lia.
    + intros m Hm Hlt. rewrite length_app. simpl.
      destruct m as [|m]; [lia|].
      destruct m as [|m].
      * change (16 ^ N.of_nat 1)%N with 16%N in Hlt.
        destruct Hnz. apply N.div_small. exact Hlt.
      * assert (Hd' : length d ≤ S m).
        { apply Hmin; [lia|]. apply N.Div0.div_lt_upper_bound.
          rewrite <- pow16_succ. exact Hlt. }
        lia.
Qed.

Lemma pos_lt_pow16 (p : positive) :
  (N.pos p < 16 ^ N.of_nat (Pos.size_nat p))%N.
Proof.
  induction p as [p IH | p IH |]; simpl Pos.size_nat.
  - rewrite pow16_succ. lia.
  - rewrite pow16_succ. lia.
  - reflexivity.
Qed.

Lemma hex_of_N_spec (n : N) :
  ∃ d, hex_of_N n = d
       ∧ 1 ≤ length d
       ∧ forallb is_hex_digit d = true
       ∧ hex_value d = n
       ∧ (∀ m, 1 ≤ m → (n < 16 ^ N.of_nat m)%N → length d ≤ m).
Proof.
  unfold hex_of_N.
  destruct (hex_go_spec (S (N.size_nat n)) n []) as (d & Hgo & Hlen & Hdig & Hval & Hmin).
  - lia.
  - rewrite pow16_succ. destruct n as [|p]; [reflexivity|].
    simpl N.size_nat. pose proof (pos_lt_pow16 p). lia.
  - exists d. rewrite app_nil_r in Hgo.
    split; [exact Hgo|]. split; [exact Hlen|]. split; [exact Hdig|].
    split; [|exact Hmin]. unfold hex_value. rewrite Hval. lia.
Qed.

Lemma hex_value_zeros (k : nat) (d : pystr) :
  hex_value (replicate k 48%N ++ d) = hex_value d.
Proof.
  unfold hex_value. rewrite fold_left_app. f_equal.
  induction k as [|k IH]; [reflexivity | exact IH].
Qed.

Lemma format_06x_digits (n : Z) :
  (0 ≤ n)%Z →
  forallb is_hex_digit (format_06x n) = true
  ∧ hex_value (format_06x n) = Z.to_N n
  ∧ 6 ≤ length (format_06x n)
  ∧ ((n < 16777216)%Z → length (format_06x n) = 6).
Proof.
  intros Hn. unfold format_06x.
  destruct (Z.ltb_spec n 0) as [Hneg|_]; [lia|].
  destruct (hex_of_N_spec (Z.abs_N n)) as (d & Hd & Hlen & Hdig & Hval & Hmin).
  rewrite Hd. simpl app. simpl length.
  split; [|split; [|split]].
  - rewrite forallb_app, Hdig, andb_true_r.
    generalize (6 - length d). intros k.
    induction k as [|k IH]; [reflexivity | exact IH].
  - rewrite hex_value_zeros, Hval. lia.
  - rewrite length_app, length_replicate. lia.
  - intros Hlt. rewrite length_app, length_replicate.
    assert (Hd6 : length d ≤ 6).
    { apply Hmin; [lia|]. change (16 ^ N.of_nat 6)%N with 16777216%N. lia. }
    lia.
Qed.

(** X8: a colour given as an integer from 0 to 16777215 is printed as
    exactly six lower-case hexadecimal digits whose value is the integer;
    a larger integer is printed with all its digits, never fewer than six. *)
Theorem format_06x_roundtrip (n : Z) :
  (0 ≤ n)%Z →
  forallb is_hex_digit (format_06x n) = true
  ∧ hex_value (format_06x n) = Z.to_N n
  ∧ 6 ≤ length (format_06x n)
  ∧ ((n < 16777216)%Z → length (format_06x n) = 6).
Proof. apply format_06x_digits. Qed.

Lemma format_06x_roundtrip_witness :
  hex_value (format_06x 13369344) = 13369344%N
  ∧ length (format_06x 13369344) = 6.
Proof.
  destruct (format_06x_roundtrip 13369344) as (_ & Hv & _ & Hl); [lia|].
  split; [exact Hv | apply Hl; lia].
Defined.

(** ** Escaping and the length of the glyph *)

(** X9: the escape compares the whole text of the cell with [<], [>] and
    [&]: a text of any length other than one is never changed, and an
    unstyled cell with a text of one character never puts a raw [<] or [>]
    in the output. *)
Theorem escape_whole_glyph_only (ch : Char) :
  (length (data ch) ≠ 1 → escape_data (data ch) = data ch)
  ∧ (length (data ch) = 1 → styled ch = false →
     ¬ In 60%N (char_to_html ch) ∧ ¬ In 62%N (char_to_html ch)).
Proof.
  split.
  - intros Hl. apply escape_data_other; intros E; rewrite E in Hl;
      apply Hl; reflexivity.
  - intros Hl Hs.
    destruct (blank_default ch) eqn:Hb.
    { rewrite (char_to_html_blank _ Hb). simpl. intuition discriminate. }
    rewrite (char_to_html_unstyled _ Hb Hs).
    destruct (data ch) as [|c [|c2 rest]] eqn:Ed; try discriminate Hl.
    unfold escape_data.
    destruct (str_eqb [c] (py "<")) eqn:E1;
      [simpl; intuition discriminate|].
    destruct (str_eqb [c] (py ">")) eqn:E2;
      [simpl; intuition discriminate|].
    destruct (str_eqb [c] (py "&")) eqn:E3;
      [simpl; intuition discriminate|].
    apply str_eqb_neq in E1, E2. simpl.
    split; intros [H | []]; subst c; [apply E1 | apply E2]; reflexivity.
Qed.

Lemma escape_whole_glyph_only_witness :
  escape_data (py "<b>") = py "<b>"
  ∧ ¬ In 60%N (char_to_html (glyph "<")).
Proof.
  split.
  - apply (proj1 (escape_whole_glyph_only (glyph "<b>"))). simpl. lia.
  - apply (proj2 (escape_whole_glyph_only (glyph "<"))); reflexivity.
Defined.

(** * Further properties of the server *)

(** ** The name of the pre-converted file *)

Lemma startswith_length (p s : pystr) :
  startswith p s = true → length p ≤ length s.
Proof.
  intros H. apply startswith_spec in H as [b ->].
  rewrite length_app. lia.
Qed.

Lemma replace_from_length (old new s : pystr) (k : nat) :
  old ≠ [] → length old < length new → k ≤ length s →
  length s ≤ length (replace_from old new k s) + k
  ∧ (contains old (drop k s) = true →
     length s < length (replace_from old new k s) + k).
Proof.
  intros Hold Hlen. revert k.
  assert (Hpos : 1 ≤ length old) by (destruct old; [contradiction | simpl; lia]).
  induction s as [|c s IH]; intros k Hk.
  - simpl in Hk. assert (k = 0) as -> by lia. simpl.
    split; [lia|]. destruct old; [contradiction | discriminate].
  - change (length (c :: s)) with (S (length s)) in *.
    destruct k as [|k].
    + rewrite drop_0.
      change (replace_from old new 0 (c :: s))
        with (if startswith old (c :: s)
              then new ++ replace_from old new (length old - 1) s
              else c :: replace_from old new 0 s).
      change (contains old (c :: s))
        with (startswith old (c :: s) || contains old s).
      destruct (startswith old (c :: s)) eqn:E.
      * apply startswith_length in E.
        change (length (c :: s)) with (S (length s)) in E.
        destruct (IH (length old - 1)) as [IHa _]; [lia|].
        rewrite length_app. split; [lia | intros _; lia].
      * destruct (IH 0) as [IHa IHb]; [lia|]. rewrite drop_0 in IHb.
        change (length (c :: replace_from old new 0 s))
          with (S (length (replace_from old new 0 s))).
        split; [lia|]. intros Hc. specialize (IHb Hc). lia.
    + destruct (IH k) as [IHa IHb]; [lia|].
      change (replace_from old new (S k) (c :: s))
        with (replace_from old new k s).
      change (drop (S k) (c :: s)) with (drop k s).
      split; [lia|]. intros Hc. specialize (IHb Hc). lia.
Qed.

Lemma replace_no_occurrence (old new s : pystr) :
  contains old s = false → replace old new s = s.
Proof.
  unfold replace. induction s as [|c s IH]; intros H; [reflexivity|].
  change (contains old (c :: s))
    with (startswith old (c :: s) || contains old s) in H.
  apply orb_false_iff in H as [H1 H2].
  change (replace_from old new 0 (c :: s))
    with (if startswith old (c :: s)
          then new ++ replace_from old new (length old - 1) s
          else c :: replace_from old new 0 s).
  rewrite H1, (IH H2). reflexivity.
Qed.

Lemma replace_from_absent (old new s : pystr) (k : nat) (x : N) :
  ¬ In x new → ¬ In x s → ¬ In x (replace_from old new k s).
Proof.
  intros Hnew. revert k. induction s as [|c s IH]; intros k Hs; [exact Hs|].
  assert (Hs' : ¬ In x s) by (intros H; apply Hs; right; exact H).
  assert (Hc : c ≠ x) by (intros H; apply Hs; left; exact H).
  destruct k as [|k]; [|apply IH; exact Hs'].
  change (replace_from old new 0 (c :: s))
    with (if startswith old (c :: s)
          then new ++ replace_from old new (length old - 1) s
          else c :: replace_from old new 0 s).
  destruct (startswith old (c :: s)).
  - intros H. apply in_app_or in H as [H | H];
      [exact (Hnew H) | exact (IH _ Hs' H)].
  - intros [H | H]; [exact (Hc H) | exact (IH _ Hs' H)].
Qed.

Lemma path_join_inj (dir a b : pystr) :
  path_join dir a = path_join dir b → a = b.
Proof.
  unfold path_join. intros H.
  apply app_inv_head in H. apply app_inv_head in H. exact H.
Qed.

(** X10: for a name that contains [.log], and so for every name that
    [view_log] accepts, the pre-converted file is not the log itself: its
    name is strictly longer. *)
Theorem html_path_differs (home filename : pystr) :
  contains (py ".log") filename = true →
  html_path_of home filename ≠ log_path_of home filename
  ∧ length filename
    < length (replace (py ".log") (py ".html") filename).
Proof.
  intros Hc.
  assert (Hlen : length filename
                 < length (replace (py ".log") (py ".html") filename)).
  { destruct (replace_from_length (py ".log") (py ".html") filename 0)
      as [_ H]; [discriminate | simpl; lia | lia |].
    rewrite drop_0 in H. specialize (H Hc). unfold replace. lia. }
  split; [|exact Hlen].
  unfold html_path_of, log_path_of. intros E.
  apply path_join_inj in E. rewrite E in Hlen. lia.
Qed.

Lemma html_path_differs_witness :
  html_path_of user_home (py "a.log") ≠ log_path_of user_home (py "a.log").
Proof.
  apply (html_path_differs user_home (py "a.log")). reflexivity.
Defined.

(** ** What a conversion returns *)

Lemma stale_not_fresh (fs : gmap (list N) File) (log_path html_path : pystr)
    (l a : File) (pre : list Access) :
  stale_html fs log_path html_path l pre →
  fs !! html_path = Some a → ¬ (mtime l ≤ mtime a)%Z.
Proof.
  intros Hs Ha Hle. destruct Hs as [Hn | a' Ha' Hlt].
  - rewrite Hn in Ha. discriminate Ha.
  - rewrite Ha' in Ha. injection Ha as ->. lia.
Qed.

Lemma fresh_html_result (home : pystr) (mtime_str : Z → pystr)
    (run_clean : gmap (list N) File → pystr → RunResult)
    (fs : gmap (list N) File) (logfile : pystr) (st : ServerState)
    (l a : File) :
  fs !! log_path_of home logfile = Some l →
  fs !! html_path_of home logfile = Some a →
  (mtime l ≤ mtime a)%Z →
  convert_log_to_html home mtime_str run_clean fs logfile st
  = (Ok (Some (text a)),
     mkState (html_cache st)
       (accesses st
        ++ [Exists (log_path_of home logfile);
            Exists (html_path_of home logfile);
            Stat (html_path_of home logfile);
            Stat (log_path_of home logfile);
            ReadText (html_path_of home logfile)])).
Proof.
  intros Hl Ha Hle.
  destruct (convert_log_to_html_case home mtime_str run_clean fs logfile st)
    as (res & cache' & evs & Heq & Hcase).
  rewrite Heq.
  destruct Hcase as [Hl' | l' a' Hl' Ha' Hle' | l' pre html Hl' Hpre Hk
                     | l' pre e Hl' Hpre Hk Hr | l' pre out Hl' Hpre Hk Hr
                     | l' pre rc out Hl' Hpre Hk Hr Hrc];
    rewrite Hl in Hl'; try discriminate Hl'; injection Hl' as <-;
    try (destruct (stale_not_fresh _ _ _ _ _ _ Hpre Ha Hle)).
  rewrite Ha in Ha'. injection Ha' as <-. reflexivity.
Qed.

(** X11: a pre-converted file that is not older than the log is returned
    whatever the cache holds and whatever the clean script would do: the
    cache is left as it is and the script is not run. *)
Theorem preconverted_file_wins (home : pystr) (mtime_str : Z → pystr)
    (run_clean run' : gmap (list N) File → pystr → RunResult)
    (fs : gmap (list N) File) (logfile : pystr) (st st2 : ServerState)
    (l a : File) :
  fs !! log_path_of home logfile = Some l →
  fs !! html_path_of home logfile = Some a →
  (mtime l ≤ mtime a)%Z →
  (convert_log_to_html home mtime_str run_clean fs logfile st).1 = Ok (Some (text a))
  ∧ (convert_log_to_html home mtime_str run' fs logfile st2).1 = Ok (Some (text a))
  ∧ html_cache (convert_log_to_html home mtime_str run_clean fs logfile st).2
    = html_cache st
  ∧ ¬ In (Subprocess (log_path_of home logfile))
         (new_accesses st (convert_log_to_html home mtime_str run_clean fs logfile st).2).
Proof.
  intros Hl Ha Hle.
  rewrite (fresh_html_result home mtime_str run_clean fs logfile st l a Hl Ha Hle).
  rewrite (fresh_html_result home mtime_str run' fs logfile st2 l a Hl Ha Hle).
  simpl. rewrite new_accesses_app.
  repeat split. simpl. intuition discriminate.
Qed.

Lemma preconverted_file_wins_witness :
  (convert_log_to_html user_home float_str run_exit_1 log_and_html (py "a.log")
     initial_state).1 = Ok (Some (py "<html>old</html>")).
Proof.
  apply (proj1 (preconverted_file_wins user_home float_str run_exit_1 run_ok
                  log_and_html (py "a.log") initial_state initial_state
                  (mkFile 7 (py "raw")) (mkFile 9 (py "<html>old</html>"))
                  ltac:(vm_compute; reflexivity)
                  ltac:(vm_compute; reflexivity)
                  ltac:(simpl; lia))).
Defined.

(** X12: for a name without [.log] the pre-converted file is the log
    itself, so [convert_log_to_html] returns the raw text of the file,
    unconverted, whenever the file exists. *)
Theorem name_without_log_returns_raw (home : pystr) (mtime_str : Z → pystr)
    (run_clean : gmap (list N) File → pystr → RunResult)
    (fs : gmap (list N) File) (logfile : pystr) (st : ServerState)
    (l : File) :
  contains (py ".log") logfile = false →
  fs !! log_path_of home logfile = Some l →
  html_path_of home logfile = log_path_of home logfile
  ∧ (convert_log_to_html home mtime_str run_clean fs logfile st).1
    = Ok (Some (text l)).
Proof.
  intros Hc Hl.
  assert (Hp : html_path_of home logfile = log_path_of home logfile).
  { unfold html_path_of. rewrite (replace_no_occurrence _ _ _ Hc). reflexivity. }
  split; [exact Hp|].
  rewrite (fresh_html_result home mtime_str run_clean fs logfile st l l);
    [reflexivity | exact Hl | rewrite Hp; exact Hl | lia].
Qed.

Lemma name_without_log_returns_raw_witness :
  (convert_log_to_html user_home float_str run_ok one_note (py "notes")
     initial_state).1 = Ok (Some (py "raw notes")).
Proof.
  apply (proj2 (name_without_log_returns_raw user_home float_str run_ok one_note
                  (py "notes") initial_state (mkFile 3 (py "raw notes"))
                  ltac:(reflexivity) ltac:(vm_compute; reflexivity))).
Defined.

(** ** The raw view *)

Ltac run_raw :=
  cbv beta iota zeta delta
    [serve_raw raw_log path_exists read_text access abort abort_if bind ret
     raise negb html_cache accesses].

(** X13: [raw_log] answers 400 for a name with [/] or [..] without looking
    at any file; for any other name that is one path component and names an
    existing regular file it tests the existence of that file, reads it and
    answers its text as plain text, whatever the suffix of the name; the
    cache is left as it is. *)
Theorem raw_log_contract (home : pystr) (fs : gmap (list N) File)
    (filename : pystr) (st : ServerState) :
  (contains (py "/") filename || contains (py "..") filename = true →
   serve_raw home fs filename st = (Status 400, st))
  ∧ (∀ f, contains (py "/") filename || contains (py "..") filename = false →
          plain_name filename →
          fs !! log_path_of home filename = Some f →
          serve_raw home fs filename st
          = (Page (text f) (py "text/plain"),
             mkState (html_cache st)
               (accesses st ++ [Exists (log_path_of home filename);
                                ReadText (log_path_of home filename)])))
  ∧ html_cache (serve_raw home fs filename st).2 = html_cache st.
Proof.
  destruct st as [cache acc].
  destruct (contains (py "/") filename || contains (py "..") filename) eqn:Hg.
  - run_raw. rewrite Hg. run_raw.
    split; [reflexivity|]. split; [discriminate | reflexivity].
  - run_raw. rewrite Hg. run_raw.
    destruct (fs !! log_path_of home filename) as [f|] eqn:Ef.
    + rewrite bool_decide_eq_true_2 by eauto. run_raw.
      rewrite <- !app_assoc.
      split; [discriminate|]. split; [|reflexivity].
      intros f' _ _ Hf. injection Hf as <-. reflexivity.
    + rewrite bool_decide_eq_false_2 by (intros [? ?]; discriminate). run_raw.
      split; [discriminate|]. split; [|reflexivity].
      intros f' _ _ Hf. discriminate Hf.
Qed.

Lemma raw_log_contract_witness :
  serve_raw user_home one_note (py "notes") initial_state
  = (Page (py "raw notes") (py "text/plain"),
     mkState ∅ [Exists (log_path_of user_home (py "notes"));
                ReadText (log_path_of user_home (py "notes"))])
  ∧ serve_raw user_home one_note (py "../notes") initial_state
    = (Status 400, initial_state).
Proof.
  split.
  - apply (proj1 (proj2 (raw_log_contract user_home one_note (py "notes")
                           initial_state)) (mkFile 3 (py "raw notes"))).
    + reflexivity.
    + unfold plain_name. simpl. repeat split; intuition discriminate.
    + vm_compute. reflexivity.
  - apply (proj1 (raw_log_contract user_home one_note (py "../notes")
                    initial_state)).
    reflexivity.
Defined.

(** ** The cache across requests *)

Lemma invokes_render_case (home : pystr) (mtime_str : Z → pystr)
    (run_clean : gmap (list N) File → pystr → RunResult)
    (fs : gmap (list N) File) (filename : pystr) (st : ServerState) :
  invokes_render home mtime_str run_clean fs filename st →
  ∃ l pre res cache',
    ¬ unsafe_name filename
    ∧ fs !! log_path_of home filename = Some l
    ∧ stale_html fs (log_path_of home filename) (html_path_of home filename)
        l pre
    ∧ html_cache st !! cache_key mtime_str filename (mtime l) = None
    ∧ convert_case home mtime_str run_clean fs filename (html_cache st) res cache'
        (pre ++ [Stat (log_path_of home filename);
                 Subprocess (log_path_of home filename)])
    ∧ serve_log home mtime_str run_clean fs filename st
      = (match res with
         | None => Status 404
         | Some body => Page body (py "text/html")
         end,
         mkState cache'
           (accesses st ++ pre ++ [Stat (log_path_of home filename);
                                   Subprocess (log_path_of home filename)])).
Proof.
  unfold invokes_render. intros Hin.
  destruct (contains (py "/") filename || contains (py "..") filename
            || negb (endswith (py ".log") filename)) eqn:Hg.
  { apply unsafe_name_guard in Hg.
    rewrite (serve_log_unsafe home mtime_str run_clean fs filename st Hg) in Hin.
    simpl in Hin. rewrite new_accesses_same in Hin. destruct Hin. }
  assert (Hsafe : ¬ unsafe_name filename).
  { rewrite unsafe_name_guard, Hg. discriminate. }
  destruct (serve_log_safe home mtime_str run_clean fs filename st Hsafe)
    as (res & cache' & evs & _ & Hcase & H).
  rewrite H in Hin. simpl in Hin.
  rewrite new_accesses_app in Hin.
  pose proof Hcase as Hcase'.
  destruct Hcase as [Hl | l a Hl Ha Hle | l pre html Hl Hpre Hk
                     | l pre e Hl Hpre Hk Hr | l pre out Hl Hpre Hk Hr
                     | l pre rc out Hl Hpre Hk Hr Hrc].
  - simpl in Hin. intuition discriminate.
  - simpl in Hin. intuition discriminate.
  - apply in_app_or in Hin as [Hin | Hin].
    + destruct (stale_no_subprocess _ _ _ _ _ _ Hpre Hin).
    + simpl in Hin. intuition discriminate.
  - exists l, pre. eauto 10.
  - exists l, pre. eauto 10.
  - exists l, pre. eauto 10.
Qed.

(** X15: once the clean script has converted a log with return code 0, the
    same request made again on the same files is answered with the same
    page from the cache: the script is not run again and the cache does not
    change. *)
Theorem second_request_hits_cache (home : pystr) (mtime_str : Z → pystr)
    (run_clean : gmap (list N) File → pystr → RunResult)
    (fs : gmap (list N) File) (filename : pystr) (st : ServerState)
    (out : pystr) :
  invokes_render home mtime_str run_clean fs filename st →
  run_clean fs (log_path_of home filename) = Completed 0 out →
  (serve_log home mtime_str run_clean fs filename st).1 = Page out (py "text/html")
  ∧ (serve_log home mtime_str run_clean fs filename
       (serve_log home mtime_str run_clean fs filename st).2).1
    = Page out (py "text/html")
  ∧ html_cache (serve_log home mtime_str run_clean fs filename
                  (serve_log home mtime_str run_clean fs filename st).2).2
    = html_cache (serve_log home mtime_str run_clean fs filename st).2
  ∧ ¬ In (Subprocess (log_path_of home filename))
         (new_accesses (serve_log home mtime_str run_clean fs filename st).2
            (serve_log home mtime_str run_clean fs filename
               (serve_log home mtime_str run_clean fs filename st).2).2).
Proof.
  intros Hin Hrun.
  destruct (invokes_render_case home mtime_str run_clean fs filename st Hin)
    as (l & pre & res & cache' & Hsafe & Hl & Hpre & Hk & Hcase & Hs).
  assert (Hfirst : res = Some out
                   ∧ cache' = <[cache_key mtime_str filename (mtime l) := out]>
                                (html_cache st)).
  { destruct Hcase as [Hl' | l' a Hl' Ha Hle | l' pre' html Hl' Hpre' Hk'
                       | l' pre' e Hl' Hpre' Hk' Hr | l' pre' o Hl' Hpre' Hk' Hr
                       | l' pre' rc o Hl' Hpre' Hk' Hr Hrc];
      rewrite Hl in Hl'; try discriminate Hl'; injection Hl' as <-.
    - destruct (stale_not_fresh _ _ _ _ _ _ Hpre Ha Hle).
    - rewrite Hk in Hk'. discriminate Hk'.
    - rewrite Hrun in Hr. discriminate Hr.
    - rewrite Hrun in Hr. injection Hr as <-. auto.
    - rewrite Hrun in Hr. injection Hr as <- <-. contradiction. }
  destruct Hfirst as [-> ->].
  rewrite Hs. simpl. split; [reflexivity|].
  set (st1 := mkState (<[cache_key mtime_str filename (mtime l) := out]> (html_cache st))
                (accesses st ++ pre ++ [Stat (log_path_of home filename);
                                        Subprocess (log_path_of home filename)])).
  destruct (serve_log_safe home mtime_str run_clean fs filename st1 Hsafe)
    as (res2 & cache2 & evs2 & _ & Hcase2 & H).
  rewrite H. simpl. rewrite new_accesses_app.
  assert (Hlook : html_cache st1 !! cache_key mtime_str filename (mtime l) = Some out).
  { simpl. apply lookup_insert_eq. }
  destruct Hcase2 as [Hl' | l' a Hl' Ha Hle | l' pre' html Hl' Hpre' Hk'
                      | l' pre' e Hl' Hpre' Hk' Hr | l' pre' o Hl' Hpre' Hk' Hr
                      | l' pre' rc o Hl' Hpre' Hk' Hr Hrc];
    rewrite Hl in Hl'; try discriminate Hl'; injection Hl' as <-;
    try (rewrite Hlook in Hk'; discriminate Hk').
  - destruct (stale_not_fresh _ _ _ _ _ _ Hpre Ha Hle).
  - rewrite Hlook in Hk'. injection Hk' as <-.
    split; [reflexivity|]. split; [reflexivity|].
    intros Hin2. apply in_app_or in Hin2 as [Hin2 | Hin2].
    + destruct (stale_no_subprocess _ _ _ _ _ _ Hpre' Hin2).
    + simpl in Hin2. intuition discriminate.
Qed.

Lemma second_request_hits_cache_witness :
  (serve_log user_home float_str run_ok one_log (py "a.log")
     (serve_log user_home float_str run_ok one_log (py "a.log") initial_state).2).1
  = Page (py "<html>page</html>") (py "text/html").
Proof.
  apply (second_request_hits_cache user_home float_str run_ok one_log (py "a.log")
           initial_state (py "<html>page</html>")).
  - unfold invokes_render. vm_compute. auto 10.
  - reflexivity.
Defined.

(** X16: a conversion never removes or changes an entry of the cache, and
    it adds one only when the clean script has completed with return code
    0: an error page and the result of a failed run are not cached. *)
Theorem cache_only_grows (home : pystr) (mtime_str : Z → pystr)
    (run_clean : gmap (list N) File → pystr → RunResult)
    (fs : gmap (list N) File) (logfile : pystr) (st : ServerState) :
  (∀ key html,
     html_cache st !! key = Some html →
     html_cache (convert_log_to_html home mtime_str run_clean fs logfile st).2 !! key
     = Some html)
  ∧ (html_cache (convert_log_to_html home mtime_str run_clean fs logfile st).2
     ≠ html_cache st →
     ∃ out, run_clean fs (log_path_of home logfile) = Completed 0 out
            ∧ (convert_log_to_html home mtime_str run_clean fs logfile st).1
              = Ok (Some out)).
Proof.
  destruct (convert_log_to_html_case home mtime_str run_clean fs logfile st)
    as (res & cache' & evs & Heq & Hcase).
  rewrite Heq. simpl.
  destruct Hcase as [Hl | l a Hl Ha Hle | l pre html Hl Hpre Hk
                     | l pre e Hl Hpre Hk Hr | l pre out Hl Hpre Hk Hr
                     | l pre rc out Hl Hpre Hk Hr Hrc];
    try (split; [auto | intros Hne; contradiction]).
  split.
  - intros key html Hkey.
    rewrite lookup_insert_ne; [exact Hkey|].
    intros <-. rewrite Hk in Hkey. discriminate Hkey.
  - intros _. exists out. auto.
Qed.

Lemma cache_only_grows_witness :
  html_cache (convert_log_to_html user_home float_str run_exit_1 one_log (py "a.log")
                initial_state).2 = ∅.
Proof.
  destruct (decide (html_cache
                      (convert_log_to_html user_home float_str run_exit_1 one_log
                         (py "a.log") initial_state).2
                    = html_cache initial_state)) as [E | Hne].
  - exact E.
  - destruct (proj2 (cache_only_grows user_home float_str run_exit_1 one_log
                       (py "a.log") initial_state) Hne) as (out & Hr & _).
    discriminate Hr.
Defined.

(** X17: the cache key is the log name, a colon and the text that the
    f-string gives for the float [st_mtime].  When that text has no colon
    and differs for different floats, the key separates its two parts at
    the last colon: two requests share a key only for the same log name and
    the same [st_mtime], even when the name itself contains colons.  Two
    states of a log with the same [st_mtime] share their key. *)
Theorem cache_key_distinct (mtime_str : Z → pystr) (f1 f2 : pystr)
    (m1 m2 : Z) :
  (∀ a b, mtime_str a = mtime_str b → a = b) →
  (∀ a, Forall (λ c, c ≠ 58%N) (mtime_str a)) →
  cache_key mtime_str f1 m1 = cache_key mtime_str f2 m2 ↔ f1 = f2 ∧ m1 = m2.
Proof.
  intros Hinj Hcolon.
  split; [apply cache_key_inj; assumption | intros [-> ->]; reflexivity].
Qed.

Lemma cache_key_distinct_witness :
  cache_key float_str (py "a:7.0") 7 ≠ cache_key float_str (py "a") 7.
Proof.
  intros E.
  apply (cache_key_distinct float_str (py "a:7.0") (py "a") 7 7
           float_str_inj float_str_no_colon) in E.
  destruct E as [E _]. discriminate E.
Defined.

(** ** The files a request touches *)

Lemma contains_single (x : N) (s : pystr) :
  contains [x] s = false → ¬ In x s.
Proof.
  intros H Hin. apply in_split in Hin as (a & b & ->).
  assert (Hc : contains [x] (a ++ x :: b) = true)
    by (apply contains_spec; exists a, b; reflexivity).
  rewrite Hc in H. discriminate H.
Qed.

Ltac solve_paths :=
  repeat first
    [ apply List.Forall_nil
    | apply List.Forall_cons; [simpl; auto|] ].

Lemma long_name_plain (name : pystr) :
  4 ≤ length name → name ≠ [] ∧ name ≠ py "." ∧ name ≠ py "..".
Proof.
  intros H. repeat split; intros ->; simpl in H; lia.
Qed.

Lemma stale_paths (fs : gmap (list N) File) (log_path html_path : pystr)
    (l : File) (pre : list Access) :
  stale_html fs log_path html_path l pre →
  Forall (λ a, access_path a = log_path ∨ access_path a = html_path) pre
  ∧ length pre ≤ 4
  ∧ List.filter is_subprocess pre = [].
Proof.
  intros Hs. destruct Hs.
  - split; [solve_paths|].
    split; [simpl; lia | reflexivity].
  - split; [solve_paths|].
    split; [simpl; lia | reflexivity].
Qed.

(** X18: a conversion looks at no other file than the log and its
    pre-converted file, makes at most six accesses and runs the clean
    script at most once; for a log name that [view_log] lets through
    (without [/], ending in [.log]) the names of both files are one path
    component each, neither empty nor [.] nor [..], so both files are
    entries of the log directory itself. *)
Theorem request_stays_in_log_dir (home : pystr) (mtime_str : Z → pystr)
    (run_clean : gmap (list N) File → pystr → RunResult)
    (fs : gmap (list N) File) (logfile : pystr) (st : ServerState) :
  Forall (λ a, access_path a = log_path_of home logfile
               ∨ access_path a = html_path_of home logfile)
    (new_accesses st (convert_log_to_html home mtime_str run_clean fs logfile st).2)
  ∧ length (new_accesses st
              (convert_log_to_html home mtime_str run_clean fs logfile st).2) ≤ 6
  ∧ length (List.filter is_subprocess
              (new_accesses st
                 (convert_log_to_html home mtime_str run_clean fs logfile st).2)) ≤ 1
  ∧ (contains (py "/") logfile = false →
     endswith (py ".log") logfile = true →
     ∃ name, html_path_of home logfile = LOG_DIR home ++ py "/" ++ name
             ∧ plain_name name
             ∧ log_path_of home logfile = LOG_DIR home ++ py "/" ++ logfile
             ∧ plain_name logfile).
Proof.
  destruct (convert_log_to_html_case home mtime_str run_clean fs logfile st)
    as (res & cache' & evs & Heq & Hcase).
  rewrite Heq. simpl. rewrite new_accesses_app.
  split; [|split; [|split]].
  - destruct Hcase as [Hl | l a Hl Ha Hle | l pre html Hl Hpre Hk
                       | l pre e Hl Hpre Hk Hr | l pre out Hl Hpre Hk Hr
                       | l pre rc out Hl Hpre Hk Hr Hrc];
      try (apply Forall_app; split;
           [apply (stale_paths _ _ _ _ _ Hpre)|]);
      solve_paths.
  - destruct Hcase as [Hl | l a Hl Ha Hle | l pre html Hl Hpre Hk
                       | l pre e Hl Hpre Hk Hr | l pre out Hl Hpre Hk Hr
                       | l pre rc out Hl Hpre Hk Hr Hrc];
      try (rewrite length_app;
           pose proof (proj1 (proj2 (stale_paths _ _ _ _ _ Hpre)))); simpl; lia.
  - destruct Hcase as [Hl | l a Hl Ha Hle | l pre html Hl Hpre Hk
                       | l pre e Hl Hpre Hk Hr | l pre out Hl Hpre Hk Hr
                       | l pre rc out Hl Hpre Hk Hr Hrc];
      try (rewrite List.filter_app,
             (proj2 (proj2 (stale_paths _ _ _ _ _ Hpre)))); simpl; lia.
  - intros Hc He. apply contains_single in Hc.
    assert (Hlen : 4 ≤ length logfile).
    { apply endswith_spec in He as [a ->]. rewrite length_app. simpl. lia. }
    assert (Hrep : 4 ≤ length (replace (py ".log") (py ".html") logfile)).
    { destruct (replace_from_length (py ".log") (py ".html") logfile 0)
        as [H _]; [discriminate | simpl; lia | lia |].
      unfold replace. lia. }
    exists (replace (py ".log") (py ".html") logfile).
    split; [reflexivity|]. split; [|split; [reflexivity|]].
    + split; [|apply long_name_plain; exact Hrep].
      apply replace_from_absent; [|exact Hc].
      simpl. intuition discriminate.
    + split; [exact Hc | apply long_name_plain; exact Hlen].
Qed.

Lemma request_stays_in_log_dir_witness :
  ∃ name, html_path_of user_home (py "a.log")
          = LOG_DIR user_home ++ py "/" ++ name
          ∧ plain_name name.
Proof.
  destruct (proj2 (proj2 (proj2 (request_stays_in_log_dir user_home float_str run_ok
              one_log (py "a.log") initial_state))))
    as (name & H1 & H2 & _); [reflexivity | reflexivity |].
  exists name. split; assumption.
Defined.

(** * Further properties of the colours *)

Lemma COLORS_values (k v : pystr) :
  COLORS !! k = Some v → css_hex_color v = true.
Proof.
  intros H.
  assert (Hin : (k, v) ∈ COLORS_entries).
  { apply (elem_of_list_to_map_2 (M := gmap (list N))). exact H. }
  assert (Hall : forallb (λ kv, css_hex_color kv.2) COLORS_entries = true)
    by (vm_compute; reflexivity).
  rewrite forallb_forall in Hall.
  apply list_elem_of_In in Hin. exact (Hall _ Hin).
Qed.

Lemma dict_get_COLORS (k dflt : pystr) :
  css_hex_color dflt = true → css_hex_color (dict_get COLORS k dflt) = true.
Proof.
  intros Hd. unfold dict_get.
  destruct (COLORS !! k) as [v|] eqn:E; simpl;
    [exact (COLORS_values _ _ E) | exact Hd].
Qed.

Lemma int_color_well_formed (n : Z) :
  (0 ≤ n < 16777216)%Z → css_hex_color (py "#" ++ format_06x n) = true.
Proof.
  intros [H0 H1].
  destruct (format_06x_digits n H0) as (Hd & _ & _ & Hl).
  specialize (Hl H1).
  change (py "#" ++ format_06x n) with (35%N :: format_06x n).
  unfold css_hex_color. rewrite Hl, Hd. reflexivity.
Qed.

(** X19: every colour that [char_to_html] writes is a well-formed
    [#rrggbb]: for every name, resolved by the table or not, for every
    other object, and for every integer from 0 to 16777215, in the
    foreground role and in the background role. *)
Theorem css_colors_well_formed (c : color) :
  (∀ n, c = CInt n → (0 ≤ n < 16777216)%Z) →
  css_hex_color (fg_color c) = true ∧ css_hex_color (bg_color c) = true.
Proof.
  intros Hn. destruct c as [s | n | b]; unfold fg_color, bg_color.
  - split; apply dict_get_COLORS, dict_get_COLORS; reflexivity.
  - split; apply int_color_well_formed, Hn; reflexivity.
  - split; reflexivity.
Qed.

Lemma css_colors_well_formed_witness :
  css_hex_color (fg_color (CInt 255)) = true
  ∧ css_hex_color (bg_color (CInt 255)) = true.
Proof.
  apply (css_colors_well_formed (CInt 255)).
  intros n H. injection H as <-. lia.
Defined.
